(** * finmodel.reader: table detection and materialisation

    A shallow embedding of [src/finmodel/reader.py] (class [ExcelReader]):
    the two region detectors, the header row locator and the readers that
    turn a region into a data frame, followed by the properties of them. *)

From Stdlib Require Import ZArith List String Ascii Bool Lia DecimalString Sorted.
Import ListNotations.
Open Scope string_scope.
Open Scope list_scope.
Open Scope Z_scope.

(** ** Cell values

    What [cell.value] holds in a workbook loaded with [data_only=True]: no
    value, text or a number. A float is carried by its [repr]: the reader
    only asks for its type, its truth value and [str] of it. *)

Inductive value : Type :=
| VNone
| VStr (s : string)
| VInt (n : Z)
| VFloat (repr : string)
| VBool (b : bool).

(** [v is None] *)
Definition is_none (v : value) : bool :=
  match v with VNone => true | _ => false end.

(** [isinstance(v, str)] *)
Definition is_str (v : value) : bool :=
  match v with VStr _ => true | _ => false end.

(** [isinstance(v, (int, float)) and v is not None]; [bool] is a subclass
    of [int]. *)
Definition is_numeric (v : value) : bool :=
  match v with VInt _ | VFloat _ | VBool _ => true | _ => false end.

(** The truth value of [v], as in [if name:] and [name or ...]. *)
Definition truthy (v : value) : bool :=
  match v with
  | VNone => false
  | VStr s => negb (s =? "")%string
  | VInt n => negb (n =? 0)
  | VFloat r => negb ((r =? "0.0")%string || (r =? "-0.0")%string)
  | VBool b => b
  end.

(** [str(n)] for an [int]. *)
Definition str_int (n : Z) : string := NilZero.string_of_int (Z.to_int n).

(** [str(v)] *)
Definition py_str (v : value) : string :=
  match v with
  | VNone => "None"
  | VStr s => s
  | VInt n => str_int n
  | VFloat r => r
  | VBool true => "True"
  | VBool false => "False"
  end.

(** Whitespace, as [str.strip] sees it. Text is held in UTF-8: the ASCII
    whitespace takes one byte, U+0085 and U+00A0 take two, and U+1680,
    U+2000 to U+200A, U+2028, U+2029, U+202F, U+205F and U+3000 take
    three. *)
Definition is_space (c : ascii) : bool :=
  let n := nat_of_ascii c in
  ((9 <=? n) && (n <=? 13) || (28 <=? n) && (n <=? 32))%nat.

Definition is_space2 (c1 c2 : ascii) : bool :=
  let n1 := nat_of_ascii c1 in
  let n2 := nat_of_ascii c2 in
  ((n1 =? 194) && ((n2 =? 133) || (n2 =? 160)))%nat.

Definition is_space3 (c1 c2 c3 : ascii) : bool :=
  let n1 := nat_of_ascii c1 in
  let n2 := nat_of_ascii c2 in
  let n3 := nat_of_ascii c3 in
  ((n1 =? 225) && (n2 =? 154) && (n3 =? 128)
   || (n1 =? 226) && (n2 =? 128)
      && ((128 <=? n3) && (n3 <=? 138)
          || (n3 =? 168) || (n3 =? 169) || (n3 =? 175))
   || (n1 =? 226) && (n2 =? 129) && (n3 =? 159)
   || (n1 =? 227) && (n2 =? 128) && (n3 =? 128))%nat.

(** [s.lstrip()] *)
Fixpoint lstrip (s : string) : string :=
  match s with
  | String c1 s1 =>
      if is_space c1 then lstrip s1
      else match s1 with
           | String c2 s2 =>
               if is_space2 c1 c2 then lstrip s2
               else match s2 with
                    | String c3 s3 =>
                        if is_space3 c1 c2 c3 then lstrip s3 else s
                    | EmptyString => s
                    end
           | EmptyString => s
           end
  | EmptyString => EmptyString
  end.

(** The text read from its end. *)
Fixpoint reverse_onto (s acc : string) : string :=
  match s with
  | String c s' => reverse_onto s' (String c acc)
  | EmptyString => acc
  end.

Definition reverse (s : string) : string := reverse_onto s EmptyString.

(** [lstrip] on a text read from its end: the bytes of a character come
    last byte first. *)
Fixpoint lstrip_reversed (s : string) : string :=
  match s with
  | String c1 s1 =>
      if is_space c1 then lstrip_reversed s1
      else match s1 with
           | String c2 s2 =>
               if is_space2 c2 c1 then lstrip_reversed s2
               else match s2 with
                    | String c3 s3 =>
                        if is_space3 c3 c2 c1 then lstrip_reversed s3 else s
                    | EmptyString => s
                    end
           | EmptyString => s
           end
  | EmptyString => EmptyString
  end.

(** [s.rstrip()] *)
Definition rstrip (s : string) : string :=
  reverse (lstrip_reversed (reverse s)).

(** [s.strip()] *)
Definition strip (s : string) : string := rstrip (lstrip s).

(** ** Exceptions *)

Inductive exn : Type := KeyError | ValueError | AttributeError.

Inductive result (A : Type) : Type :=
| Ok (a : A)
| Raise (e : exn).
Arguments Ok {A} a.
Arguments Raise {A} e.

Definition bind {A B : Type} (m : result A) (k : A -> result B) : result B :=
  match m with
  | Ok a => k a
  | Raise e => Raise e
  end.

Notation "x <- m ;; k" := (bind m (fun x => k))
  (at level 61, m at next level, right associativity).

Fixpoint mapM {A B : Type} (f : A -> result B) (l : list A) : result (list B) :=
  match l with
  | [] => Ok []
  | x :: t => y <- f x ;; ys <- mapM f t ;; Ok (y :: ys)
  end.

(** ** Worksheets and workbooks

    A worksheet is the dense grid [ws.iter_rows(values_only=True)] yields:
    row [r] is the [r]-th list, column [c] its [c]-th entry, both from 1; a
    cell the grid does not reach has no value. *)

Definition Worksheet : Type := list (list value).

(** [ws.max_row] and [ws.max_column]; openpyxl reports 1 for a sheet without
    cells. *)
Definition max_row (ws : Worksheet) : Z := Z.max 1 (Z.of_nat (List.length ws)).

Definition max_column (ws : Worksheet) : Z :=
  Z.max 1 (Z.of_nat (list_max (map (@List.length value) ws))).

(** The value stored at row [r], column [c]. *)
Definition cell_value (ws : Worksheet) (r c : Z) : value :=
  if (1 <=? r) && (1 <=? c)
  then nth (Z.to_nat (c - 1)) (nth (Z.to_nat (r - 1)) ws []) VNone
  else VNone.

(** [ws.cell(r, c).value]: openpyxl refuses a row or column below 1, and
    hands out an empty cell anywhere else. *)
Definition ws_cell (ws : Worksheet) (r c : Z) : result value :=
  if (r <? 1) || (c <? 1) then Raise ValueError else Ok (cell_value ws r c).

Record Workbook : Type := {
  wb_sheets : list (string * Worksheet);
  wb_active_index : nat
}.

(** [workbook[sheet_name]] *)
Definition wb_getitem (wb : Workbook) (sheet_name : string) : result Worksheet :=
  match find (fun p => (fst p =? sheet_name)%string) (wb_sheets wb) with
  | Some p => Ok (snd p)
  | None => Raise KeyError
  end.

(** [workbook.active]: [None] when the index points at no sheet. *)
Definition wb_active (wb : Workbook) : option Worksheet :=
  nth_error (map snd (wb_sheets wb)) (wb_active_index wb).

(** [range(a, b)] *)
Definition range (a b : Z) : list Z :=
  map (fun i => a + Z.of_nat i) (seq 0 (Z.to_nat (b - a))).

(** [enumerate(l, start)] *)
Fixpoint enumerate {A : Type} (start : Z) (l : list A) : list (Z * A) :=
  match l with
  | [] => []
  | x :: t => (start, x) :: enumerate (start + 1) t
  end.

(** ** Regions *)

Record TableRegion : Type := {
  start_row : Z;
  end_row : Z;
  start_col : Z;
  end_col : Z;
  name : string;
  title_row : option Z
}.

(** [f"Table_{len(tables)+1}"] *)
Definition default_name (tables : list TableRegion) : string :=
  String.append "Table_" (str_int (Z.of_nat (List.length tables) + 1)).

(** ** [detect_key_value_tables]

    The scan keeps [tables], [current_title], [current_title_row] and the
    open span. [current_start] and [current_end] are assigned together at
    every site of the loop, so the span is one optional pair. *)

Record kv_state : Type := {
  tables : list TableRegion;
  current_title : option string;
  current_title_row : option Z;
  current_span : option (Z * Z)
}.

Definition kv_init : kv_state :=
  {| tables := []; current_title := None; current_title_row := None;
     current_span := None |}.

(** [current_title or f"Table_{len(tables)+1}"] *)
Definition title_or_default (title : option string) (tbls : list TableRegion)
  : string :=
  match title with
  | Some t => if (t =? "")%string then default_name tbls else t
  | None => default_name tbls
  end.

(** The region appended for the span [s]-[e]. *)
Definition kv_region (st : kv_state) (s e : Z) : TableRegion :=
  {| start_row := s; end_row := e; start_col := 1; end_col := 3;
     name := title_or_default (current_title st) (tables st);
     title_row := current_title_row st |}.

(** One iteration of the loop, at row [row_idx] with the values of columns
    A and B. *)
Definition kv_step (st : kv_state) (row_idx : Z) (col_a col_b : value)
  : kv_state :=
  if negb (is_none col_a) && is_none col_b then
    {| tables := match current_span st with
                 | Some (s, e) => tables st ++ [kv_region st s e]
                 | None => tables st
                 end;
       current_title := Some (strip (py_str col_a));
       current_title_row := Some row_idx;
       current_span := None |}
  else if negb (is_none col_a) && negb (is_none col_b) then
    {| tables := tables st;
       current_title := current_title st;
       current_title_row := current_title_row st;
       current_span := match current_span st with
                       | Some (s, _) => Some (s, row_idx)
                       | None => Some (row_idx, row_idx)
                       end |}
  else if is_none col_a && is_none col_b then
    match current_span st with
    | Some (s, e) =>
        {| tables := tables st ++ [kv_region st s e];
           current_title := current_title st;
           current_title_row := current_title_row st;
           current_span := None |}
    | None => st
    end
  else st.

(** The iteration at [row_idx], which is 1 or more: [ws.cell] does not
    raise there. *)
Definition kv_row (ws : Worksheet) (st : kv_state) (row_idx : Z) : kv_state :=
  kv_step st row_idx (cell_value ws row_idx 1) (cell_value ws row_idx 2).

(** The state when the loop over [range(1, ws.max_row + 1)] ends. *)
Definition kv_scan (ws : Worksheet) : kv_state :=
  fold_left (kv_row ws) (range 1 (max_row ws + 1)) kv_init.

(** The flush after the loop. *)
Definition kv_flush (st : kv_state) : list TableRegion :=
  match current_span st with
  | Some (s, e) => tables st ++ [kv_region st s e]
  | None => tables st
  end.

Definition kv_detect (ws : Worksheet) : list TableRegion :=
  kv_flush (kv_scan ws).

Definition detect_key_value_tables (wb : Workbook) (sheet_name : string)
  : result (list TableRegion) :=
  ws <- wb_getitem wb sheet_name ;;
  Ok (kv_detect ws).

(** ** [detect_tables] *)

(** The loop that collects [(row_idx, col_idx)] of every cell with a value. *)
Definition row_cells (row_idx : Z) (row : list value) : list (Z * Z) :=
  flat_map (fun cv => if is_none (snd cv) then [] else [(row_idx, fst cv)])
           (enumerate 1 row).

Definition data_cells (ws : Worksheet) : list (Z * Z) :=
  flat_map (fun rr => row_cells (fst rr) (snd rr)) (enumerate 1 ws).

(** Tuple comparison, and [list.sort] as a stable insertion sort. *)
Definition pair_leb (p q : Z * Z) : bool :=
  (fst p <? fst q) || ((fst p =? fst q) && (snd p <=? snd q)).

Fixpoint insert_sorted (p : Z * Z) (l : list (Z * Z)) : list (Z * Z) :=
  match l with
  | [] => [p]
  | q :: t => if pair_leb q p then q :: insert_sorted p t else p :: l
  end.

Fixpoint sort_cells (l : list (Z * Z)) : list (Z * Z) :=
  match l with
  | [] => []
  | p :: t => insert_sorted p (sort_cells t)
  end.

(** The [current_region] dict. *)
Record region_acc : Type := {
  acc_start_row : Z;
  acc_end_row : Z;
  acc_start_col : Z;
  acc_end_col : Z
}.

(** The name looked up at the region's first row and first column. *)
Definition corner_name (ws : Worksheet) (cur : region_acc)
  (tbls : list TableRegion) : string :=
  let v := cell_value ws (acc_start_row cur) (acc_start_col cur) in
  if truthy v then
    let s := strip (py_str v) in
    if (s =? "")%string then default_name tbls else s
  else default_name tbls.

(** Append the current region when it has at least [min_rows] rows. *)
Definition save_region (ws : Worksheet) (min_rows : Z) (cur : region_acc)
  (tbls : list TableRegion) : list TableRegion :=
  if acc_end_row cur - acc_start_row cur + 1 >=? min_rows then
    tbls ++ [{| start_row := acc_start_row cur; end_row := acc_end_row cur;
                start_col := acc_start_col cur; end_col := acc_end_col cur;
                name := corner_name ws cur tbls; title_row := None |}]
  else tbls.

(** The loop over [data_cells[1:]], with [prev_row] the row of the cell
    before. *)
Fixpoint scan_cells (ws : Worksheet) (min_rows : Z) (prev_row : Z)
  (cur : region_acc) (tbls : list TableRegion) (cells : list (Z * Z))
  : region_acc * list TableRegion :=
  match cells with
  | [] => (cur, tbls)
  | (curr_row, _) :: rest =>
      if curr_row - prev_row >? 1 then
        scan_cells ws min_rows curr_row
          {| acc_start_row := curr_row; acc_end_row := curr_row;
             acc_start_col := acc_start_col cur;
             acc_end_col := acc_end_col cur |}
          (save_region ws min_rows cur tbls) rest
      else
        scan_cells ws min_rows curr_row
          {| acc_start_row := acc_start_row cur; acc_end_row := curr_row;
             acc_start_col := acc_start_col cur;
             acc_end_col := acc_end_col cur |}
          tbls rest
  end.

(** [min(c for r, c in data_cells)] and [max(...)] of a list with first
    element [c0]. *)
Definition min_col (c0 : Z) (rest : list (Z * Z)) : Z :=
  fold_left Z.min (map snd rest) c0.

Definition max_col (c0 : Z) (rest : list (Z * Z)) : Z :=
  fold_left Z.max (map snd rest) c0.

(** The body of [detect_tables] on the sheet. The list is sorted in place
    after the test for emptiness; sorting keeps it empty or not, so one
    match on the sorted list covers the early return. The rows and columns
    come from [enumerate(..., 1)], so every [ws.cell] of the detectors is at
    row and column 1 or more and does not raise: they read [cell_value]. *)
Definition detect_tables_ws (ws : Worksheet) (min_rows : Z)
  : list TableRegion :=
  match sort_cells (data_cells ws) with
  | [] => []
  | (r0, c0) :: rest =>
      let cur := {| acc_start_row := r0; acc_end_row := r0;
                    acc_start_col := min_col c0 rest;
                    acc_end_col := max_col c0 rest |} in
      let (cur', tbls) := scan_cells ws min_rows r0 cur [] rest in
      save_region ws min_rows cur' tbls
  end.

Definition detect_tables (wb : Workbook) (sheet_name : string) (min_rows : Z)
  : result (list TableRegion) :=
  ws <- wb_getitem wb sheet_name ;;
  Ok (detect_tables_ws ws min_rows).

(** ** [detect_header_row] *)

(** [[ws.cell(row_idx, col_idx).value for col_idx in range(start_col, end_col + 1)]] *)
Definition read_row (ws : Worksheet) (region : TableRegion) (row_idx : Z)
  : result (list value) :=
  mapM (ws_cell ws row_idx) (range (start_col region) (end_col region + 1)).

Definition count (f : value -> bool) (l : list value) : Z :=
  Z.of_nat (List.length (filter f l)).

(** [string_count >= len(row) * 0.5 and numeric_count > 0]: the counts and
    the length are integers, so the comparison with the float is exact. *)
Definition mostly_strings_then_numbers (row next_row : list value) : bool :=
  (Z.of_nat (List.length row) <=? 2 * count is_str row)
  && (0 <? count is_numeric next_row).

(** The loop over [range(max_check_rows)], and the default after it. *)
Fixpoint header_scan (ws : Worksheet) (region : TableRegion)
  (offsets : list Z) : result (option Z) :=
  match offsets with
  | [] =>
      Ok (if end_row region >? start_row region
          then Some (start_row region) else None)
  | offset :: rest =>
      let row_idx := start_row region + offset in
      row_values <- read_row ws region row_idx ;;
      if negb (forallb (fun v => negb (is_none v)) row_values) then
        header_scan ws region rest
      else
        confirmed <-
          (if row_idx <? end_row region then
             next_row_values <- read_row ws region (row_idx + 1) ;;
             Ok (mostly_strings_then_numbers row_values next_row_values)
           else Ok false) ;;
        if confirmed then Ok (Some row_idx)
        else if (offset =? 0) && forallb is_str row_values
             then Ok (Some row_idx)
             else header_scan ws region rest
  end.

Definition detect_header_row (wb : Workbook) (sheet_name : string)
  (region : TableRegion) : result (option Z) :=
  ws <- wb_getitem wb sheet_name ;;
  let max_check_rows := Z.min 3 (end_row region - start_row region + 1) in
  header_scan ws region (range 0 max_check_rows).

(** ** Data frames

    A frame is its column labels, its index labels and its rows of values.
    A label is a position of the default [RangeIndex] or a value taken from
    the data. The dtype conversions of pandas are not modelled. *)

Inductive label : Type :=
| LPos (n : nat)
| LVal (v : value).

Record DataFrame : Type := {
  df_columns : list label;
  df_index : list label;
  df_values : list (list value)
}.

(** [pd.DataFrame()] *)
Definition empty_frame : DataFrame :=
  {| df_columns := []; df_index := []; df_values := [] |}.

Definition positions (n : nat) : list label := map LPos (seq 0 n).

Definition width (data : list (list value)) : nat :=
  match data with
  | [] => 0%nat
  | row :: _ => List.length row
  end.

(** [pd.DataFrame(data)] for rows of one width. *)
Definition frame (data : list (list value)) : DataFrame :=
  {| df_columns := positions (width data);
     df_index := positions (List.length data);
     df_values := data |}.

(** [pd.DataFrame(data, columns=cols)] *)
Definition frame_with_columns (data : list (list value)) (cols : list label)
  : DataFrame :=
  {| df_columns := cols;
     df_index := positions (List.length data);
     df_values := data |}.

(** [df.empty] *)
Definition df_empty (df : DataFrame) : bool :=
  match df_columns df, df_index df with
  | [], _ | _, [] => true
  | _, _ => false
  end.

(** [df.set_index(df.columns[0])]: the first column becomes the index. *)
Definition set_first_index (df : DataFrame) : DataFrame :=
  {| df_columns := tl (df_columns df);
     df_index := map (fun row => LVal (hd VNone row)) (df_values df);
     df_values := map (@tl value) (df_values df) |}.

(** ** [read_table] and [read_key_value_region] *)

(** The nested loop that reads the cells of the region, row by row. *)
Definition extract_data (ws : Worksheet) (region : TableRegion)
  : result (list (list value)) :=
  mapM (read_row ws region) (range (start_row region) (end_row region + 1)).

(** The frame [read_table] builds from the rows read. *)
Definition table_frame (data : list (list value))
  (has_header auto_detect_header : bool) : DataFrame :=
  match data with
  | [] => empty_frame
  | first_row :: others =>
      if auto_detect_header && (1 <? Z.of_nat (List.length data)) then
        let second_row := hd [] others in
        if mostly_strings_then_numbers first_row second_row
        then frame_with_columns others (map LVal first_row)
        else frame data
      else if has_header && (1 <? Z.of_nat (List.length data)) then
        frame_with_columns others (map LVal first_row)
      else frame data
  end.

(** [ws.cell(r, c).value] for [ws = self.workbook.active]: with no active
    sheet [ws] is [None] and the call raises. *)
Definition active_cell (ws : option Worksheet) (r c : Z) : result value :=
  match ws with
  | Some sheet => ws_cell sheet r c
  | None => Raise AttributeError
  end.

Definition read_table (wb : Workbook) (region : TableRegion)
  (has_header auto_detect_header : bool) : result DataFrame :=
  let ws := wb_active wb in
  data <- mapM (fun row_idx =>
                  mapM (active_cell ws row_idx)
                       (range (start_col region) (end_col region + 1)))
               (range (start_row region) (end_row region + 1)) ;;
  Ok (table_frame data has_header auto_detect_header).

(** The frame [read_key_value_region] builds from the rows read. *)
Definition key_value_frame (data : list (list value)) : DataFrame :=
  match data with
  | [] => empty_frame
  | first_row :: _ =>
      let named :=
        if (List.length first_row =? 2)%nat then
          Some (frame_with_columns data [LVal (VStr "Parameter"); LVal (VStr "Value")])
        else if (List.length first_row =? 3)%nat then
          Some (frame_with_columns data
                  [LVal (VStr "Parameter"); LVal (VStr "Value"); LVal (VStr "Unit")])
        else None in
      match named with
      | Some df => if negb (df_empty df) then set_first_index df else df
      | None => frame data
      end
  end.

Definition read_key_value_region (wb : Workbook) (sheet_name : string)
  (region : TableRegion) : result DataFrame :=
  ws <- wb_getitem wb sheet_name ;;
  data <- extract_data ws region ;;
  Ok (key_value_frame data).

(** ** [read_key_value_table] *)

(** Keep the rows of the frame whose first value is not missing, with their
    index labels: [df[df.iloc[:, 0].notna()]]. *)
Definition keep_labelled (df : DataFrame) : DataFrame :=
  let kept :=
    filter (fun ir => negb (is_none (hd VNone (snd ir))))
           (combine (df_index df) (df_values df)) in
  {| df_columns := df_columns df;
     df_index := map fst kept;
     df_values := map snd kept |}.

Definition read_key_value_table (wb : Workbook) (sheet_name : string)
  (start_row_arg end_row_arg : option Z) : result DataFrame :=
  ws <- wb_getitem wb sheet_name ;;
  let first := match start_row_arg with Some r => r | None => 1 end in
  let last := match end_row_arg with Some r => r | None => max_row ws end in
  rows <- mapM (fun row_idx => mapM (ws_cell ws row_idx)
                                    (range 1 (max_column ws + 1)))
               (range first (last + 1)) ;;
  let data := filter (existsb (fun v => negb (is_none v))) rows in
  match data with
  | [] => Ok empty_frame
  | _ =>
      let df := keep_labelled (frame data) in
      Ok (if negb (df_empty df) then set_first_index df else df)
  end.

(** ** Properties of regions and sheets used in the statements *)

(** The cell at row [r], column [c] of the sheet holds a value. *)
Definition populated (ws : Worksheet) (r c : Z) : Prop :=
  cell_value ws r c <> VNone.

(** The invariant of a region: its spans are not empty. *)
Definition region_ok (r : TableRegion) : Prop :=
  start_row r <= end_row r /\ start_col r <= end_col r.

(** [r1] lies wholly above [r2]: it starts before it and ends before it
    starts. *)
Definition rows_before (r1 r2 : TableRegion) : Prop :=
  start_row r1 < start_row r2 /\ end_row r1 < start_row r2.

(** The regions of one pass: each is a region, and each lies above every
    later one. *)
Definition well_separated (l : list TableRegion) : Prop :=
  Forall region_ok l /\ ForallOrdPairs rows_before l.

(** [c] is the least (greatest) column of a populated cell of the rows
    [lo..hi]. *)
Definition least_col_in_rows (ws : Worksheet) (lo hi c : Z) : Prop :=
  (exists r, lo <= r <= hi /\ populated ws r c) /\
  (forall r c', lo <= r <= hi -> populated ws r c' -> c <= c').

Definition greatest_col_in_rows (ws : Worksheet) (lo hi c : Z) : Prop :=
  (exists r, lo <= r <= hi /\ populated ws r c) /\
  (forall r c', lo <= r <= hi -> populated ws r c' -> c' <= c).

(** The column span the specification words ask of a region: the extent of
    the populated cells of its own rows. *)
Definition span_of_own_run (ws : Worksheet) (r : TableRegion) : Prop :=
  least_col_in_rows ws (start_row r) (end_row r) (start_col r) /\
  greatest_col_in_rows ws (start_row r) (end_row r) (end_col r).

(** [c] is the least (greatest) column of a populated cell of the sheet. *)
Definition least_col_of_sheet (ws : Worksheet) (c : Z) : Prop :=
  (exists r, populated ws r c) /\ (forall r c', populated ws r c' -> c <= c').

Definition greatest_col_of_sheet (ws : Worksheet) (c : Z) : Prop :=
  (exists r, populated ws r c) /\ (forall r c', populated ws r c' -> c' <= c).

(** The region reaches past the extent of the sheet. *)
Definition past_extent (ws : Worksheet) (r : TableRegion) : Prop :=
  max_row ws < end_row r \/ max_column ws < end_col r.

(** The rows of the region as the sheet stores them. *)
Definition region_cells (ws : Worksheet) (r : TableRegion)
  : list (list value) :=
  map (fun i => map (cell_value ws i) (range (start_col r) (end_col r + 1)))
      (range (start_row r) (end_row r + 1)).

(** The shape of the header agreement, on the cells that a procedure reads
    from [ws]: the first row of the region is all text and every further
    row is all numbers. *)
Definition text_over_numbers (ws : Worksheet) (r : TableRegion) : Prop :=
  (forall c, start_col r <= c <= end_col r ->
             is_str (cell_value ws (start_row r) c) = true) /\
  (forall i c, start_row r < i <= end_row r -> start_col r <= c <= end_col r ->
               is_numeric (cell_value ws i c) = true).

(** Two regions with the same coordinates. *)
Definition same_coordinates (r1 r2 : TableRegion) : Prop :=
  start_row r1 = start_row r2 /\ end_row r1 = end_row r2 /\
  start_col r1 = start_col r2 /\ end_col r1 = end_col r2.

(** ** Invariants of the two scans *)

(** A property of regions that depends on their coordinates only, and the
    accumulators whose region has it. *)
Definition region_has (P : Z -> Z -> Z -> Z -> Prop) (r : TableRegion) : Prop :=
  P (start_row r) (end_row r) (start_col r) (end_col r).

Definition acc_has (P : Z -> Z -> Z -> Z -> Prop) (cur : region_acc) : Prop :=
  P (acc_start_row cur) (acc_end_row cur) (acc_start_col cur)
    (acc_end_col cur).

(** The invariant of the key-value scan before row [b]: the regions
    appended so far are well separated and end above [b]; an open span is
    not empty, ends above [b] and starts below all of them. *)
Definition kv_inv (st : kv_state) (b : Z) : Prop :=
  well_separated (tables st) /\
  Forall (fun x => end_row x < b) (tables st) /\
  match current_span st with
  | Some (s, e) =>
      s <= e /\ e < b /\ Forall (fun x => end_row x < s) (tables st)
  | None => True
  end.

(** The rows of a list of cells never decrease, from [prev] on. *)
Fixpoint rows_ascend (prev : Z) (cells : list (Z * Z)) : Prop :=
  match cells with
  | [] => True
  | (r, _) :: rest => prev <= r /\ rows_ascend r rest
  end.

(** The order of the tuples. *)
Definition pair_le (p q : Z * Z) : Prop := pair_leb p q = true.

(** The invariant of the generic scan after the cell of row [prev]: the
    regions appended so far are well separated and end above the current
    one, which is a region and ends at [prev]. *)
Definition gen_inv (tbls : list TableRegion) (cur : region_acc) (prev : Z)
  : Prop :=
  well_separated tbls /\
  Forall (fun x => end_row x < acc_start_row cur) tbls /\
  acc_start_row cur <= acc_end_row cur /\
  acc_end_row cur = prev /\
  acc_start_col cur <= acc_end_col cur.

(** ** Sheets of the scenarios *)

Definition one_sheet (ws : Worksheet) : Workbook :=
  {| wb_sheets := [("Sheet1", ws)]; wb_active_index := 0 |}.

Definition region (r1 r2 c1 c2 : Z) : TableRegion :=
  {| start_row := r1; end_row := r2; start_col := c1; end_col := c2;
     name := ""; title_row := None |}.

(** Scenario A: two titled key-value blocks. *)
Definition sheet_a : Worksheet :=
  [ [VStr "Rates"; VNone];
    [VStr "Spot"; VInt 50];
    [VStr "Vol"; VFloat "0.4"];
    [VNone; VNone];
    [VStr "Greeks"; VNone];
    [VStr "Delta"; VFloat "0.68"] ].

(** Scenario D: two rows of numbers. *)
Definition sheet_d : Worksheet :=
  [ [VInt 48; VFloat "0.4"];
    [VInt 52; VFloat "0.42"] ].

(** Scenario C: a row of names above two rows of numbers. *)
Definition sheet_c : Worksheet :=
  [ [VStr "Strike"; VStr "Spot"; VStr "Vol"];
    [VInt 50; VInt 48; VFloat "0.4"];
    [VInt 52; VInt 48; VFloat "0.42"] ].

(** Two bands of rows in different columns. *)
Definition sheet_bands : Worksheet :=
  [ [VStr "a"; VNone; VNone];
    [VInt 1; VNone; VNone];
    [VNone; VNone; VNone];
    [VNone; VNone; VStr "b"];
    [VNone; VNone; VInt 2] ].

(** A key-value block with a row that has a value and no label. *)
Definition sheet_gap : Worksheet :=
  [ [VStr "Spot"; VInt 50; VNone];
    [VNone; VInt 7; VNone];
    [VStr "Vol"; VFloat "0.4"; VNone] ].

(** A workbook of two sheets, the first one active. *)
Definition two_sheets : Workbook :=
  {| wb_sheets := [("Inputs", sheet_a); ("Grid", sheet_c)];
     wb_active_index := 0 |}.

(** ** What the key-value scan keeps, row by row *)

(** A data row has a value in column A and in column B; a title row has one
    in column A only. *)
Definition data_row (ws : Worksheet) (i : Z) : Prop :=
  populated ws i 1 /\ populated ws i 2.

Definition title_row_of (ws : Worksheet) (t : Z) : Prop :=
  populated ws t 1 /\ ~ populated ws t 2.

(** The text of the title at row [t]. *)
Definition title_text (ws : Worksheet) (t : Z) : string :=
  strip (py_str (cell_value ws t 1)).

(** A region as the key-value detector builds them: columns 1 to 3, rows
    inside the sheet, a data row first and last, a value in column B on
    every row, and a title row, if any, above the first row. *)
Definition kv_region_sound (ws : Worksheet) (r : TableRegion) : Prop :=
  start_col r = 1 /\ end_col r = 3 /\
  1 <= start_row r /\ start_row r <= end_row r /\ end_row r <= max_row ws /\
  data_row ws (start_row r) /\ data_row ws (end_row r) /\
  (forall i, start_row r <= i <= end_row r -> populated ws i 2) /\
  match title_row r with
  | Some t => 1 <= t < start_row r /\ title_row_of ws t
  | None => True
  end.

(** The name of the [k]-th region (from 0): the text of its title row, or
    the placeholder with its position when there is no title or its text is
    empty. *)
Definition kv_name_at (ws : Worksheet) (k : nat) (r : TableRegion) : string :=
  let placeholder := String.append "Table_" (str_int (Z.of_nat k + 1)) in
  match title_row r with
  | Some t =>
      if (title_text ws t =? "")%string then placeholder else title_text ws t
  | None => placeholder
  end.

(** At least one row lies between the end of [r1] and the start of [r2]. *)
Definition gapped (r1 r2 : TableRegion) : Prop :=
  end_row r1 + 1 < start_row r2.

(** The state of the scan before row [b]. *)
Definition kv_title_inv (ws : Worksheet) (st : kv_state) (b : Z) : Prop :=
  match current_title_row st, current_title st with
  | Some t, Some s => 1 <= t < b /\ title_row_of ws t /\ s = title_text ws t
  | None, None => True
  | _, _ => False
  end.

Definition kv_span_inv (ws : Worksheet) (st : kv_state) (b : Z) : Prop :=
  match current_span st with
  | Some (s, e) =>
      1 <= s /\ s <= e /\ e < b /\ data_row ws s /\ data_row ws e /\
      (forall i, s <= i < b -> populated ws i 2) /\
      (forall t, current_title_row st = Some t -> t < s) /\
      Forall (fun x => end_row x + 1 < s) (tables st)
  | None => Forall (fun x => end_row x + 1 < b) (tables st)
  end.

Definition kv_tables_inv (ws : Worksheet) (tbls : list TableRegion) : Prop :=
  Forall (kv_region_sound ws) tbls /\
  ForallOrdPairs gapped tbls /\
  (forall k r, nth_error tbls k = Some r -> name r = kv_name_at ws k r).

Definition kv_sound (ws : Worksheet) (st : kv_state) (b : Z) : Prop :=
  b <= max_row ws + 1 /\
  kv_title_inv ws st b /\ kv_span_inv ws st b /\ kv_tables_inv ws (tables st).

(** The scan has found a table: one is appended or a span is open. *)
Definition kv_found (st : kv_state) : Prop :=
  tables st <> [] \/ current_span st <> None.

(** ** What the generic scan keeps, cell by cell *)

(** A row with a value somewhere, and a row without any. *)
Definition row_populated (ws : Worksheet) (i : Z) : Prop :=
  exists c, populated ws i c.

Definition blank_row (ws : Worksheet) (i : Z) : Prop :=
  forall c, ~ populated ws i c.

(** A band of the sheet: rows [s..e], from row 1 on, each with a value, with
    a blank row (or the edge of the sheet) right above and right below. *)
Definition band (ws : Worksheet) (s e : Z) : Prop :=
  1 <= s /\ s <= e /\
  (forall i, s <= i <= e -> row_populated ws i) /\
  blank_row ws (s - 1) /\ blank_row ws (e + 1).

(** The state of the generic scan after the cells [done], the last of them
    on row [prev], with [cells] left. *)
Definition gen_sound (ws : Worksheet) (done cells : list (Z * Z))
  (cur : region_acc) (tbls : list TableRegion) (prev : Z) : Prop :=
  Forall (fun p => fst p <= prev) done /\
  rows_ascend prev cells /\
  1 <= acc_start_row cur /\ acc_start_row cur <= prev /\
  acc_end_row cur = prev /\
  (forall i, acc_start_row cur <= i <= prev -> row_populated ws i) /\
  blank_row ws (acc_start_row cur - 1) /\
  Forall (fun r => band ws (start_row r) (end_row r)) tbls /\
  Forall (fun r => end_row r + 1 < acc_start_row cur) tbls /\
  ForallOrdPairs gapped tbls.

(** ** Style presets ([src/finmodel/styles.py]) *)

Record CellStyle : Type := {
  background_color : option string;
  text_color : option string;
  font_weight : option string;
  font_style : option string;
  text_align : option string
}.

Record TableStyle : Type := {
  ts_name : string;
  header_style : CellStyle;
  index_style : CellStyle;
  data_style : CellStyle;
  description : string
}.

(** A cell style from its background, weight and alignment; the text is
    black and [font_style] keeps its default in every preset. *)
Definition cell_style (bg : option string) (weight align : string)
  : CellStyle :=
  {| background_color := bg; text_color := Some "#000000";
     font_weight := Some weight; font_style := None;
     text_align := Some align |}.

Definition ASSUMPTIONS : TableStyle :=
  {| ts_name := "assumptions";
     header_style := cell_style None "bold" "left";
     index_style := cell_style None "bold" "left";
     data_style := cell_style (Some "#D9D9D9") "normal" "right";
     description := "Grey background for assumption values (inputs/parameters)" |}.

Definition STANDARD : TableStyle :=
  {| ts_name := "standard";
     header_style := cell_style (Some "#8FAADC") "bold" "left";
     index_style := cell_style (Some "#D9E2F3") "normal" "left";
     data_style := cell_style (Some "#FFFFFF") "normal" "right";
     description := "Standard blue headers (default style)" |}.

(** [CALCULATIONS = STANDARD]: the alias replaces the preset of that name
    defined above it. *)
Definition CALCULATIONS : TableStyle := STANDARD.

Definition INPUT_DATA : TableStyle :=
  {| ts_name := "input_data";
     header_style := cell_style (Some "#FFFFFF") "bold" "left";
     index_style := cell_style (Some "#FFFFFF") "bold" "left";
     data_style := cell_style (Some "#FDE9D9") "normal" "right";
     description := "Light orange for input data values" |}.

Definition CALC_AND_OUTPUT : TableStyle :=
  {| ts_name := "calc_and_output";
     header_style := cell_style (Some "#FFFFFF") "bold" "left";
     index_style := cell_style (Some "#FFFFFF") "bold" "left";
     data_style := cell_style (Some "#F2F2F2") "normal" "right";
     description := "Light grey for calculations and output" |}.

Definition FORMULAS_OR_REFS : TableStyle :=
  {| ts_name := "formulas_or_refs";
     header_style := cell_style (Some "#FFFFFF") "bold" "left";
     index_style := cell_style (Some "#FFFFFF") "bold" "left";
     data_style := cell_style (Some "#E2EFDA") "normal" "right";
     description := "Light green for formulas or references" |}.

Definition PLAUSIBILITY : TableStyle :=
  {| ts_name := "plausibility";
     header_style := cell_style (Some "#FFFFFF") "bold" "left";
     index_style := cell_style (Some "#FFFFFF") "bold" "left";
     data_style := cell_style (Some "#E9D7F3") "normal" "right";
     description := "Light violet for plausibility checks" |}.

Definition RESULTS : TableStyle :=
  {| ts_name := "results";
     header_style := cell_style (Some "#FFC000") "bold" "left";
     index_style := cell_style (Some "#FFF2CC") "bold" "left";
     data_style := cell_style (Some "#FFF2CC") "normal" "right";
     description := "Yellow background for result values" |}.

Definition OUTPUTS : TableStyle := RESULTS.

(** [preset_map], in the order of its keys. *)
Definition preset_map : list (string * TableStyle) :=
  [ ("assumptions", ASSUMPTIONS); ("standard", STANDARD);
    ("calculations", CALCULATIONS); ("input_data", INPUT_DATA);
    ("calc_and_output", CALC_AND_OUTPUT);
    ("formulas_or_refs", FORMULAS_OR_REFS);
    ("plausibility", PLAUSIBILITY); ("results", RESULTS);
    ("outputs", OUTPUTS) ].

(** [s.lower()] on ASCII letters. The keys of [preset_map] are ASCII and
    have no letter that a character outside ASCII lowers to, so other
    characters are left as they are. *)
Definition lower_ascii (c : ascii) : ascii :=
  let n := nat_of_ascii c in
  if ((65 <=? n) && (n <=? 90))%nat then ascii_of_nat (n + 32) else c.

Fixpoint lower (s : string) : string :=
  match s with
  | EmptyString => EmptyString
  | String c s' => String (lower_ascii c) (lower s')
  end.

(** A dict lookup on a list of items. *)
Fixpoint lookup {A : Type} (key : string) (items : list (string * A))
  : option A :=
  match items with
  | [] => None
  | (k, v) :: rest => if (k =? key)%string then Some v else lookup key rest
  end.

(** [StylePreset.get(preset_name)] *)
Definition StylePreset_get (preset_name : string) : result TableStyle :=
  match lookup (lower preset_name) preset_map with
  | Some style => Ok style
  | None => Raise ValueError
  end.

(** A [FinancialTable] built without assertions: the frame and the preset. *)
Record FinancialTable : Type := {
  ft_df : DataFrame;
  ft_style_preset : TableStyle
}.

(** [FinancialTable(df, style=style)] *)
Definition financial_table (df : DataFrame) (style : string)
  : result FinancialTable :=
  preset <- StylePreset_get style ;;
  Ok {| ft_df := df; ft_style_preset := preset |}.

(** ** [read_all_tables] *)

Definition read_all_tables (wb : Workbook) (sheet_name style : string)
  (key_value : bool) : result (list (string * FinancialTable)) :=
  regions <- (if key_value then detect_key_value_tables wb sheet_name
              else detect_tables wb sheet_name 2) ;;
  mapM (fun region =>
          df <- (if key_value
                 then read_key_value_region wb sheet_name region
                 else read_table wb region true true) ;;
          table <- financial_table df style ;;
          Ok (name region, table))
       regions.

(** The frame of a key-value region of the sheet: indexed by column A, with
    the values of columns B and C. *)
Definition kv_region_frame (ws : Worksheet) (r : TableRegion) : DataFrame :=
  {| df_columns := [LVal (VStr "Value"); LVal (VStr "Unit")];
     df_index := map (fun i => LVal (cell_value ws i 1))
                     (range (start_row r) (end_row r + 1));
     df_values := map (fun i => [cell_value ws i 2; cell_value ws i 3])
                      (range (start_row r) (end_row r + 1)) |}.

(** ** [list_tables] *)

(** [reader.sheet_names] *)
Definition sheet_names (wb : Workbook) : list string :=
  map fst (wb_sheets wb).

(** [d[key] = v] on a dict kept as the list of its items: the value of an
    existing key is replaced where it stands, a new key goes to the end. *)
Fixpoint dict_set {A : Type} (key : string) (v : A)
  (items : list (string * A)) : list (string * A) :=
  match items with
  | [] => [(key, v)]
  | (k, x) :: rest =>
      if (k =? key)%string then (k, v) :: rest
      else (k, x) :: dict_set key v rest
  end.

(** [df.head(n)]: the rows [[:n]] of the frame. *)
Definition head (n : Z) (df : DataFrame) : DataFrame :=
  let len := List.length (df_index df) in
  let k := if 0 <=? n then Z.to_nat n else (len - Z.to_nat (- n))%nat in
  {| df_columns := df_columns df;
     df_index := firstn k (df_index df);
     df_values := firstn k (df_values df) |}.

(** The dict [table_info]: the keys ['columns'] and ['preview'] are set
    together, with [glimpse]. *)
Record table_info : Type := {
  ti_name : string;
  ti_rows : string;
  ti_cols : string;
  ti_size : string;
  ti_glimpse : option (list label * DataFrame)
}.

(** The entries that do not depend on [glimpse]. *)
Definition basic_info (r : TableRegion)
  (g : option (list label * DataFrame)) : table_info :=
  {| ti_name := name r;
     ti_rows := String.append (str_int (start_row r))
                  (String.append "-" (str_int (end_row r)));
     ti_cols := String.append (str_int (start_col r))
                  (String.append "-" (str_int (end_col r)));
     ti_size := String.append (str_int (end_row r - start_row r + 1))
                  (String.append " rows Ã— "
                     (String.append (str_int (end_col r - start_col r + 1))
                        " cols"));
     ti_glimpse := g |}.

Definition table_info_of (wb : Workbook) (sheet_name : string)
  (glimpse : bool) (max_rows : Z) (r : TableRegion) : result table_info :=
  if glimpse then
    df <- read_key_value_region wb sheet_name r ;;
    Ok (basic_info r (Some (df_columns df, head max_rows df)))
  else Ok (basic_info r None).

(** The regions of the sheet: those of the key-value detector, or those of
    the generic detector when there are none. *)
Definition regions_of_sheet (wb : Workbook) (sheet_name : string)
  : result (list TableRegion) :=
  regions <- detect_key_value_tables wb sheet_name ;;
  match regions with
  | [] => detect_tables wb sheet_name 2
  | _ :: _ => Ok regions
  end.

(** The loop over the sheet names, with the dict built so far. *)
Fixpoint list_tables_loop (wb : Workbook) (glimpse : bool) (max_rows : Z)
  (names : list string) (acc : list (string * list table_info))
  : result (list (string * list table_info)) :=
  match names with
  | [] => Ok acc
  | sheet_name :: rest =>
      regions <- regions_of_sheet wb sheet_name ;;
      tables_info <- mapM (table_info_of wb sheet_name glimpse max_rows)
                          regions ;;
      list_tables_loop wb glimpse max_rows rest
                       (dict_set sheet_name tables_info acc)
  end.

(** [list_tables], on the workbook that [ExcelReader(filepath)] loaded. *)
Definition list_tables (wb : Workbook) (glimpse : bool) (max_rows : Z)
  : result (list (string * list table_info)) :=
  list_tables_loop wb glimpse max_rows (sheet_names wb) [].

(** What the entry of a sheet should be: one info for each region of the
    key-value detector or, without any, of the generic detector with two
    rows at least; the preview is read as a key-value region. *)
Definition regions_of (ws : Worksheet) : list TableRegion :=
  match kv_detect ws with
  | [] => detect_tables_ws ws 2
  | r :: l => r :: l
  end.

Definition sheet_infos (ws : Worksheet) (glimpse : bool) (max_rows : Z)
  : list table_info :=
  map (fun r =>
         basic_info r
           (if glimpse
            then let df := key_value_frame (region_cells ws r) in
                 Some (df_columns df, head max_rows df)
            else None))
      (regions_of ws).

(** The entry of [sheet_name] in the dict that [list_tables] returns. *)
Definition expected_entry (wb : Workbook) (glimpse : bool) (max_rows : Z)
  (sheet_name : string) : option (list table_info) :=
  match wb_getitem wb sheet_name with
  | Ok ws => Some (sheet_infos ws glimpse max_rows)
  | Raise _ => None
  end.


(** The strict order of the tuples. *)
Definition pair_lt (p q : Z * Z) : Prop :=
  fst p < fst q \/ (fst p = fst q /\ snd p < snd q).

(** ** Text replacement

    [s.replace(old, new)]: the occurrences of [old] are replaced from the
    left, without overlap; an empty [old] matches before every character
    and at the end. *)

(** The replacement with [skip] characters of a match still to pass. *)
Fixpoint replace_skip (old new s : string) (skip : nat) : string :=
  match s with
  | EmptyString => EmptyString
  | String c s' =>
      match skip with
      | S k => replace_skip old new s' k
      | O =>
          if prefix old s
          then String.append new
                 (replace_skip old new s' (String.length old - 1))
          else String c (replace_skip old new s' 0)
      end
  end.

Fixpoint interleave (new s : string) : string :=
  match s with
  | EmptyString => new
  | String c s' => String.append new (String c (interleave new s'))
  end.

Definition replace (old new s : string) : string :=
  match old with
  | EmptyString => interleave new s
  | String _ _ => replace_skip old new s 0
  end.

(** The escaping of LaTeX in table cells, headers and listing captions:
    [s.replace("_", "\\_").replace("%", "\\%").replace("&", "\\&")]. *)
Definition escape_latex (s : string) : string :=
  replace "&" "\&" (replace "%" "\%" (replace "_" "\_" s)).

(** The text with every character [c] replaced by [f c]. *)
Fixpoint subst (f : ascii -> string) (s : string) : string :=
  match s with
  | EmptyString => EmptyString
  | String c s' => String.append (f c) (subst f s')
  end.

(** The characters that [escape_latex] escapes. *)
Definition latex_special (c : ascii) : bool :=
  (c =? "_")%char || (c =? "%")%char || (c =? "&")%char.

Definition escape_latex_char (c : ascii) : string :=
  if latex_special c then String "\" (String c EmptyString)
  else String c EmptyString.

(** The number of characters of [s] that satisfy [p]. *)
Fixpoint count_chars (p : ascii -> bool) (s : string) : nat :=
  match s with
  | EmptyString => 0
  | String c s' => (if p c then 1 else 0) + count_chars p s'
  end.

(** [old] occurs in [s]. *)
Definition occurs (old s : string) : Prop :=
  exists pre post, s = String.append pre (String.append old post).

(** ** [buildfiles/fix_listing_captions.py] and [buildfiles/apply_fonts.py]

    The files are read and written whole; the functions are modelled on
    their contents. *)

(** [fix_latex_captions]: the new content of the file and the number
    returned; [captions] are the items of the dict. *)
Definition fix_latex_captions (content : string)
  (captions : list (string * string)) : string * nat :=
  (fold_left
     (fun content lc =>
        let escaped_caption := escape_latex (snd lc) in
        let old_pattern :=
          String.append "\caption{\label{" (String.append (fst lc) "}}") in
        let new_pattern :=
          String.append "\caption{"
            (String.append escaped_caption
               (String.append "\label{" (String.append (fst lc) "}}"))) in
        replace old_pattern new_pattern content)
     captions content,
   List.length captions).

(** [apply_to_preamble]: the content written to the output file, from the
    content of the template. *)
Definition apply_to_preamble (config : list (string * string))
  (template : string) : string :=
  fold_left
    (fun content kv =>
       let placeholder := String.append "{{" (String.append (fst kv) "}}") in
       replace placeholder (snd kv) content)
    config template.

(** ** [load_font_config] and [get_notebook_fonts] *)

(** [s.strip(c)] for a single character [c]. *)
Fixpoint lstrip_char (c : ascii) (s : string) : string :=
  match s with
  | String x s' => if (x =? c)%char then lstrip_char c s' else s
  | EmptyString => EmptyString
  end.

Fixpoint rstrip_char (c : ascii) (s : string) : string :=
  match s with
  | String x s' =>
      match rstrip_char c s' with
      | EmptyString =>
          if (x =? c)%char then EmptyString else String x EmptyString
      | t => String x t
      end
  | EmptyString => EmptyString
  end.

Definition strip_char (c : ascii) (s : string) : string :=
  rstrip_char c (lstrip_char c s).

(** [s.split(c, 1)] when [c in s]: the text before the first [c] and the
    text after it; [None] when [c] is not in [s]. *)
Fixpoint split_once (c : ascii) (s : string) : option (string * string) :=
  match s with
  | EmptyString => None
  | String x s' =>
      if (x =? c)%char then Some (EmptyString, s')
      else match split_once c s' with
           | Some (before, after) => Some (String x before, after)
           | None => None
           end
  end.

(** What a line of the file defines, if anything: blank lines, comments
    and lines without "=" define nothing. The double quote is character
    34. *)
Definition line_entry (line : string) : option (string * string) :=
  let line := strip line in
  if (line =? "")%string || prefix "#" line then None
  else match split_once "=" line with
       | Some (key, value) =>
           Some (key, strip_char "'" (strip_char "034" (strip value)))
       | None => None
       end.

(** The body of the loop over the lines. *)
Definition config_line (config : list (string * string)) (line : string)
  : list (string * string) :=
  match line_entry line with
  | Some (key, value) => dict_set key value config
  | None => config
  end.

Definition default_font_config : list (string * string) :=
  [ ("MAIN_FONT", "Latin Modern Roman");
    ("MONO_FONT", "Latin Modern Mono");
    ("MATH_FONT", "Euler-Math.otf");
    ("TABLE_FONT", "Latin Modern Mono");
    ("TABLE_FONT_SCALE", "1.0") ].

(** [load_font_config], on the lines of the file, or [None] when the file
    does not exist. *)
Definition load_font_config (file : option (list string))
  : list (string * string) :=
  match file with
  | None => default_font_config
  | Some lines => fold_left config_line lines []
  end.

(** [config.get(key, default)] *)
Definition dict_get (config : list (string * string)) (key default : string)
  : string :=
  match lookup key config with
  | Some v => v
  | None => default
  end.

Record notebook_fonts : Type := { mainfont : string; monofont : string }.

Definition get_notebook_fonts (config : list (string * string))
  : notebook_fonts :=
  {| mainfont := dict_get config "MAIN_FONT" "Latin Modern Roman";
     monofont := dict_get config "MONO_FONT" "Latin Modern Mono" |}.

(** ** The escaping of text in [PlotextChart._ansi_to_latex] *)

(** The ten replacements applied to a text part, in their order. *)
Definition escape_verbatim (part : string) : string :=
  let escaped := part in
  let escaped := replace "\" "\textbackslash{}" escaped in
  let escaped := replace "{" "\{" escaped in
  let escaped := replace "}" "\}" escaped in
  let escaped := replace "_" "\_" escaped in
  let escaped := replace "^" "\textasciicircum{}" escaped in
  let escaped := replace "~" "\textasciitilde{}" escaped in
  let escaped := replace "#" "\#" escaped in
  let escaped := replace "$" "\$" escaped in
  let escaped := replace "%" "\%" escaped in
  replace "&" "\&" escaped.

(** What the ten replacements make of one character. *)
Definition escape_verbatim_char (c : ascii) : string :=
  if (c =? "\")%char then "\textbackslash\{\}"
  else if (c =? "{")%char then "\{"
  else if (c =? "}")%char then "\}"
  else if (c =? "_")%char then "\_"
  else if (c =? "^")%char then "\textasciicircum{}"
  else if (c =? "~")%char then "\textasciitilde{}"
  else if (c =? "#")%char then "\#"
  else if (c =? "$")%char then "\$"
  else if (c =? "%")%char then "\%"
  else if (c =? "&")%char then "\&"
  else String c EmptyString.

(** * Properties *)

(** ** Ranges and reads *)

Lemma range_nil (a b : Z) : b <= a -> range a b = [].
Proof.
  intros H. unfold range.
  replace (Z.to_nat (b - a)) with 0%nat by lia. reflexivity.
Qed.

Lemma range_cons (a b : Z) : a < b -> range a b = a :: range (a + 1) b.
Proof.
  intros H. unfold range.
  replace (Z.to_nat (b - a)) with (S (Z.to_nat (b - (a + 1)))) by lia.
  cbn [seq map]. f_equal; [lia|].
  rewrite <- seq_shift, map_map.
  apply map_ext. intros i. lia.
Qed.

Lemma range_snoc (a b : Z) : a <= b -> range a (b + 1) = range a b ++ [b].
Proof.
  intros H. unfold range.
  replace (Z.to_nat (b + 1 - a)) with (Z.to_nat (b - a) + 1)%nat by lia.
  rewrite seq_app, map_app. cbn [seq map Nat.add]. do 2 f_equal. lia.
Qed.

Lemma range_In (a b i : Z) : In i (range a b) <-> a <= i < b.
Proof.
  unfold range. rewrite in_map_iff. split.
  - intros (k & <- & Hk). apply in_seq in Hk. lia.
  - intros H. exists (Z.to_nat (i - a)). split; [lia|].
    apply in_seq. lia.
Qed.

Lemma range_length (a b : Z) : List.length (range a b) = Z.to_nat (b - a).
Proof. unfold range. now rewrite length_map, length_seq. Qed.

Lemma mapM_ok {A B : Type} (f : A -> result B) (g : A -> B) (l : list A) :
  (forall x, In x l -> f x = Ok (g x)) -> mapM f l = Ok (map g l).
Proof.
  induction l as [|x t IH]; intros H; cbn [mapM map]; [reflexivity|].
  rewrite (H x (or_introl eq_refl)). cbn [bind].
  rewrite IH by (intros y Hy; apply H; now right). reflexivity.
Qed.

Lemma ws_cell_ok (ws : Worksheet) (r c : Z) :
  1 <= r -> 1 <= c -> ws_cell ws r c = Ok (cell_value ws r c).
Proof.
  intros Hr Hc. unfold ws_cell.
  destruct (r <? 1) eqn:E1; [lia|]. destruct (c <? 1) eqn:E2; [lia|].
  reflexivity.
Qed.

Lemma read_row_ok (ws : Worksheet) (r : TableRegion) (i : Z) :
  1 <= i -> 1 <= start_col r ->
  read_row ws r i
  = Ok (map (cell_value ws i) (range (start_col r) (end_col r + 1))).
Proof.
  intros Hi Hc. unfold read_row. apply mapM_ok.
  intros c Hin. apply range_In in Hin. apply ws_cell_ok; lia.
Qed.

Lemma extract_data_ok (ws : Worksheet) (r : TableRegion) :
  1 <= start_row r -> 1 <= start_col r ->
  extract_data ws r = Ok (region_cells ws r).
Proof.
  intros Hr Hc. unfold extract_data, region_cells. apply mapM_ok.
  intros i Hin. apply range_In in Hin. apply read_row_ok; lia.
Qed.

Lemma read_table_active (wb : Workbook) (ws : Worksheet) (r : TableRegion)
  (has_header auto_detect_header : bool) :
  wb_active wb = Some ws ->
  read_table wb r has_header auto_detect_header
  = (data <- extract_data ws r ;;
     Ok (table_frame data has_header auto_detect_header)).
Proof. intros Hact. unfold read_table. rewrite Hact. reflexivity. Qed.

Lemma cell_value_past_extent (ws : Worksheet) (i j : Z) :
  max_row ws < i \/ max_column ws < j -> cell_value ws i j = VNone.
Proof.
  unfold max_row, max_column, cell_value. intros H.
  destruct ((1 <=? i) && (1 <=? j)) eqn:E; [|reflexivity].
  apply andb_prop in E. destruct E as [Ei Ej].
  destruct (Nat.lt_ge_cases (Z.to_nat (i - 1)) (List.length ws)) as [Hlt|Hge].
  - apply nth_overflow.
    assert (Hin : In (nth (Z.to_nat (i - 1)) ws []) ws) by now apply nth_In.
    assert (Hle : (list_max (map (@List.length value) ws)
                   <= list_max (map (@List.length value) ws))%nat) by lia.
    apply list_max_le in Hle. rewrite Forall_forall in Hle.
    specialize (Hle _ (in_map (@List.length value) _ _ Hin)). lia.
  - rewrite (nth_overflow ws [] Hge). now destruct (Z.to_nat (j - 1)).
Qed.

(** ** The key-value detector on single rows and on scenario A *)

(** C5: on the six rows of scenario A the key-value detector returns two
    regions in order, "Rates" over rows 2-3 and "Greeks" over rows 6-6; when
    the loop ends only "Rates" has been appended and the span 6-6 is still
    open, so the flush after the loop appends "Greeks". *)
Theorem scenario_a_two_regions :
  let rates := {| start_row := 2; end_row := 3; start_col := 1; end_col := 3;
                  name := "Rates"; title_row := Some 1 |} in
  let greeks := {| start_row := 6; end_row := 6; start_col := 1; end_col := 3;
                   name := "Greeks"; title_row := Some 5 |} in
  tables (kv_scan sheet_a) = [rates] /\
  current_span (kv_scan sheet_a) = Some (6, 6) /\
  detect_key_value_tables (one_sheet sheet_a) "Sheet1" = Ok [rates; greeks].
Proof. vm_compute. repeat split. Qed.

(** C9: a blank row (no value in column A nor in column B) leaves the title
    and its row as they were, closes the open span if there is one and
    appends its region; a data row after it opens a span which, when
    flushed, is named by that same title and carries its title row. *)
Theorem kv_blank_row_keeps_title (st : kv_state) (i j : Z) (a b : value) :
  is_none a = false -> is_none b = false ->
  let st1 := kv_step st i VNone VNone in
  let st2 := kv_step st1 j a b in
  current_title st1 = current_title st /\
  current_title_row st1 = current_title_row st /\
  current_span st1 = None /\
  tables st1 = kv_flush st /\
  kv_flush st2
  = tables st1 ++
    [{| start_row := j; end_row := j; start_col := 1; end_col := 3;
        name := title_or_default (current_title st) (tables st1);
        title_row := current_title_row st |}].
Proof.
  intros Ha Hb. unfold kv_step, kv_flush, kv_region.
  rewrite Ha, Hb. cbn [negb andb is_none].
  destruct st as [tbls title trow [[s e]|]]; cbn; repeat split.
Qed.

Lemma kv_blank_row_keeps_title_witness :
  let st := kv_step (kv_step kv_init 1 (VStr "Rates") VNone)
                    2 (VStr "Spot") (VInt 50) in
  current_title (kv_step st 3 VNone VNone) = Some "Rates" /\
  kv_flush (kv_step (kv_step st 3 VNone VNone) 4 (VStr "Vol") (VFloat "0.4"))
  = tables (kv_step st 3 VNone VNone) ++
    [{| start_row := 4; end_row := 4; start_col := 1; end_col := 3;
        name := "Rates"; title_row := Some 1 |}].
Proof.
  intros st.
  pose proof (kv_blank_row_keeps_title st 3 4 (VStr "Vol") (VFloat "0.4")
                eq_refl eq_refl) as H.
  cbv zeta in H. destruct H as (H1 & _ & _ & _ & H5).
  split; [exact H1 | exact H5].
Defined.

(** ** The header row locator and [read_table] on scenario D *)

(** C4, as the scenario words it, fails: on the two rows of numbers the
    locator does not answer "no header". *)
Lemma scenario_d_locator_not_none :
  ~ (detect_header_row (one_sheet sheet_d) "Sheet1" (region 1 2 1 2) = Ok None /\
     read_table (one_sheet sheet_d) (region 1 2 1 2) true true
     = Ok (frame [[VInt 48; VFloat "0.4"]; [VInt 52; VFloat "0.42"]])).
Proof. intros [H _]. vm_compute in H. discriminate H. Qed.

(** C4, amended: on the two rows of numbers no row is recognised, and since
    the region has more than one row the locator falls back to its start
    row; [read_table] with auto-detection keeps both rows as data under the
    positional columns 0 and 1. *)
Theorem scenario_d_default_header_positional :
  mostly_strings_then_numbers [VInt 48; VFloat "0.4"] [VInt 52; VFloat "0.42"]
  = false /\
  forallb is_str [VInt 48; VFloat "0.4"] = false /\
  header_scan sheet_d (region 1 2 1 2) [] = Ok (Some 1) /\
  detect_header_row (one_sheet sheet_d) "Sheet1" (region 1 2 1 2) = Ok (Some 1) /\
  read_table (one_sheet sheet_d) (region 1 2 1 2) true true
  = Ok {| df_columns := [LPos 0; LPos 1];
          df_index := [LPos 0; LPos 1];
          df_values := [[VInt 48; VFloat "0.4"]; [VInt 52; VFloat "0.42"]] |}.
Proof. vm_compute. repeat split. Qed.

(** ** Key-value materialisation *)

(** The key-value detector produces a region with an unlabelled row: a row
    with a value and no label does not close the span. *)
Lemma kv_detect_sheet_gap :
  kv_detect sheet_gap
  = [{| start_row := 1; end_row := 3; start_col := 1; end_col := 3;
        name := "Table_1"; title_row := None |}].
Proof. reflexivity. Qed.

(** C3 at a failing input: [read_key_value_region] keeps the row of the
    region whose first column has no value, indexed by the missing label. *)
Theorem key_value_region_keeps_unlabelled_row :
  read_key_value_region (one_sheet sheet_gap) "Sheet1" (region 1 3 1 3)
  = Ok {| df_columns := [LVal (VStr "Value"); LVal (VStr "Unit")];
          df_index := [LVal (VStr "Spot"); LVal VNone; LVal (VStr "Vol")];
          df_values := [[VInt 50; VNone]; [VInt 7; VNone];
                        [VFloat "0.4"; VNone]] |}.
Proof. reflexivity. Qed.

(** The sibling reader drops that row on the same rows of the same sheet. *)
Lemma key_value_table_drops_unlabelled_row :
  read_key_value_table (one_sheet sheet_gap) "Sheet1" (Some 1) (Some 3)
  = Ok {| df_columns := [LPos 1; LPos 2];
          df_index := [LVal (VStr "Spot"); LVal (VStr "Vol")];
          df_values := [[VInt 50; VNone]; [VFloat "0.4"; VNone]] |}.
Proof. reflexivity. Qed.

(** ** Which sheet [read_table] reads *)

(** C10: [read_table] reads the cells of the active sheet and of no other:
    whatever the flags, two workbooks with the same active sheet and two
    regions with the same coordinates give the same result, whichever
    sheets the regions were detected on and whatever the other sheets
    hold. *)
Theorem read_table_reads_active_sheet (wb1 wb2 : Workbook)
  (r1 r2 : TableRegion) (has_header auto_detect_header : bool) :
  wb_active wb1 = wb_active wb2 -> same_coordinates r1 r2 ->
  read_table wb1 r1 has_header auto_detect_header
  = read_table wb2 r2 has_header auto_detect_header.
Proof.
  intros Hact (Hsr & Her & Hsc & Hec). unfold read_table.
  now rewrite Hact, Hsr, Her, Hsc, Hec.
Qed.

Lemma read_table_reads_active_sheet_witness :
  wb_active two_sheets = wb_active (one_sheet sheet_a) /\
  same_coordinates
    {| start_row := 2; end_row := 3; start_col := 1; end_col := 3;
       name := "Rates"; title_row := Some 1 |}
    (region 2 3 1 3) /\
  read_table two_sheets
    {| start_row := 2; end_row := 3; start_col := 1; end_col := 3;
       name := "Rates"; title_row := Some 1 |} true true
  = read_table (one_sheet sheet_a) (region 2 3 1 3) true true.
Proof.
  assert (Hact : wb_active two_sheets = wb_active (one_sheet sheet_a))
    by reflexivity.
  assert (Hco : same_coordinates
                  {| start_row := 2; end_row := 3; start_col := 1;
                     end_col := 3; name := "Rates"; title_row := Some 1 |}
                  (region 2 3 1 3))
    by (repeat split).
  split; [exact Hact | split; [exact Hco |]].
  exact (read_table_reads_active_sheet _ _ _ _ true true Hact Hco).
Defined.

(** The region the generic detector finds on the sheet "Grid" is read from
    "Inputs" when that is the active sheet. *)
Lemma read_table_of_other_sheet :
  detect_tables two_sheets "Grid" 2
  = Ok [{| start_row := 1; end_row := 3; start_col := 1; end_col := 3;
           name := "Strike"; title_row := None |}] /\
  read_table two_sheets
    {| start_row := 1; end_row := 3; start_col := 1; end_col := 3;
       name := "Strike"; title_row := None |} true true
  = Ok (frame [[VStr "Rates"; VNone; VNone];
               [VStr "Spot"; VInt 50; VNone];
               [VStr "Vol"; VFloat "0.4"; VNone]]).
Proof. vm_compute. split; reflexivity. Qed.

(** ** Regions past the extent of the sheet *)

(** C2, as stated, fails: the region 2-4 x 2-3 reaches past the two rows
    and two columns of the sheet, and both readers return a frame. *)
Lemma read_past_extent_does_not_raise :
  past_extent sheet_d (region 2 4 2 3) /\
  ~ (exists e, read_table (one_sheet sheet_d) (region 2 4 2 3) true true
               = Raise e) /\
  ~ (exists e, read_key_value_region (one_sheet sheet_d) "Sheet1"
                 (region 2 4 2 3) = Raise e).
Proof.
  split; [left; vm_compute; reflexivity|].
  split; intros [e H]; vm_compute in H; discriminate H.
Qed.

(** C2, amended: the readers do not compare the region with the extent of
    the sheet. For a region that starts at row 1 or below it and column 1 or
    right of it, [read_table] and [read_key_value_region] return the frame
    of the cells of the region as the sheet stores them, and a cell past
    the last row or the last column of the sheet is stored as no value. *)
Theorem read_past_extent_reads_absent (wb : Workbook) (sheet_name : string)
  (active ws : Worksheet) (r : TableRegion)
  (has_header auto_detect_header : bool) :
  wb_active wb = Some active -> wb_getitem wb sheet_name = Ok ws ->
  1 <= start_row r -> 1 <= start_col r ->
  read_table wb r has_header auto_detect_header
  = Ok (table_frame (region_cells active r) has_header auto_detect_header) /\
  read_key_value_region wb sheet_name r
  = Ok (key_value_frame (region_cells ws r)) /\
  (forall i j, max_row active < i \/ max_column active < j ->
               cell_value active i j = VNone) /\
  (forall i j, max_row ws < i \/ max_column ws < j ->
               cell_value ws i j = VNone).
Proof.
  intros Hact Hget Hr Hc.
  rewrite (read_table_active wb active) by exact Hact.
  unfold read_key_value_region. rewrite Hget. cbn [bind].
  rewrite !extract_data_ok by assumption. cbn [bind].
  repeat split; auto using cell_value_past_extent.
Qed.

Lemma read_past_extent_reads_absent_witness :
  read_table (one_sheet sheet_d) (region 2 4 2 3) true true
  = Ok (frame [[VFloat "0.42"; VNone]; [VNone; VNone]; [VNone; VNone]]) /\
  read_key_value_region (one_sheet sheet_d) "Sheet1" (region 2 4 2 3)
  = Ok {| df_columns := [LVal (VStr "Value")];
          df_index := [LVal (VFloat "0.42"); LVal VNone; LVal VNone];
          df_values := [[VNone]; [VNone]; [VNone]] |}.
Proof.
  destruct (read_past_extent_reads_absent (one_sheet sheet_d) "Sheet1"
              sheet_d sheet_d (region 2 4 2 3) true true
              eq_refl eq_refl) as (H1 & H2 & _).
  - cbn. lia.
  - cbn. lia.
  - split; [exact H1 | exact H2].
Defined.

(** ** The generic detector: what every appended region satisfies *)

Section GenericScan.

Variable ws : Worksheet.
Variable min_rows : Z.

Variable P : Z -> Z -> Z -> Z -> Prop.

Lemma save_region_Forall (cur : region_acc) (tbls : list TableRegion) :
  (min_rows <= acc_end_row cur - acc_start_row cur + 1 -> acc_has P cur) ->
  Forall (region_has P) tbls ->
  Forall (region_has P) (save_region ws min_rows cur tbls).
Proof.
  intros Hcur Htbls. unfold save_region.
  destruct (_ >=? min_rows) eqn:E; [|exact Htbls].
  apply Forall_app. split; [exact Htbls|].
  constructor; [|constructor]. apply Hcur. lia.
Qed.

End GenericScan.

Lemma scan_cells_min_rows (ws : Worksheet) (min_rows : Z)
  (cells : list (Z * Z)) :
  forall prev cur tbls,
    Forall (fun r => min_rows <= end_row r - start_row r + 1) tbls ->
    Forall (fun r => min_rows <= end_row r - start_row r + 1)
           (snd (scan_cells ws min_rows prev cur tbls cells)).
Proof.
  induction cells as [|[curr_row c] rest IH]; intros prev cur tbls H;
    cbn [scan_cells]; [exact H|].
  destruct (curr_row - prev >? 1); apply IH; [|exact H].
  apply (save_region_Forall ws min_rows (fun s e _ _ => min_rows <= e - s + 1));
    [intros Hle; exact Hle | exact H].
Qed.

Lemma detect_tables_ws_min_rows (ws : Worksheet) (min_rows : Z) :
  Forall (fun r => min_rows <= end_row r - start_row r + 1)
         (detect_tables_ws ws min_rows).
Proof.
  unfold detect_tables_ws.
  destruct (sort_cells (data_cells ws)) as [|[r0 c0] rest]; [constructor|].
  match goal with
  | |- context [scan_cells ws min_rows r0 ?c [] rest] =>
      pose proof (scan_cells_min_rows ws min_rows rest r0 c [] (Forall_nil _)) as H;
      destruct (scan_cells ws min_rows r0 c [] rest) as [cur' tbls]
  end.
  cbn [snd] in H.
  apply (save_region_Forall ws min_rows (fun s e _ _ => min_rows <= e - s + 1));
    [intros Hle; exact Hle | exact H].
Qed.

(** C7: every region the generic detector returns when called with
    [min_rows = N], [N >= 1], spans at least [N] rows. *)
Theorem detect_tables_min_rows (wb : Workbook) (sheet_name : string) (N : Z)
  (l : list TableRegion) (r : TableRegion) :
  1 <= N -> detect_tables wb sheet_name N = Ok l -> In r l ->
  end_row r - start_row r + 1 >= N.
Proof.
  intros _ Hdet Hin. unfold detect_tables in Hdet.
  destruct (wb_getitem wb sheet_name) as [ws|e]; cbn [bind] in Hdet;
    [|discriminate Hdet].
  injection Hdet as <-.
  pose proof (detect_tables_ws_min_rows ws N) as H.
  rewrite Forall_forall in H. specialize (H r Hin). lia.
Qed.

Lemma detect_tables_min_rows_witness :
  In {| start_row := 4; end_row := 5; start_col := 1; end_col := 3;
        name := "Table_2"; title_row := None |}
     (detect_tables_ws sheet_bands 2) /\
  5 - 4 + 1 >= 2.
Proof.
  assert (Hin : In {| start_row := 4; end_row := 5; start_col := 1;
                      end_col := 3; name := "Table_2"; title_row := None |}
                   (detect_tables_ws sheet_bands 2))
    by (vm_compute; right; left; reflexivity).
  split; [exact Hin|].
  exact (detect_tables_min_rows (one_sheet sheet_bands) "Sheet1" 2
           (detect_tables_ws sheet_bands 2) _ ltac:(lia) eq_refl Hin).
Defined.

(** ** The cells the generic detector collects *)

Lemma enumerate_In {A : Type} (l : list A) :
  forall (s i : Z) (x : A),
    In (i, x) (enumerate s l) <->
    s <= i /\ nth_error l (Z.to_nat (i - s)) = Some x.
Proof.
  induction l as [|y t IH]; intros s i x; cbn [enumerate In].
  - split; [tauto|]. intros [_ H]. now destruct (Z.to_nat (i - s)).
  - rewrite IH. split.
    + intros [E | [Hle Hnth]].
      * injection E as <- <-. split; [lia|].
        now replace (Z.to_nat (s - s)) with 0%nat by lia.
      * split; [lia|].
        replace (Z.to_nat (i - s)) with (S (Z.to_nat (i - (s + 1)))) by lia.
        exact Hnth.
    + intros [Hle Hnth].
      destruct (Z.eq_dec i s) as [->|Hne].
      * left. replace (Z.to_nat (s - s)) with 0%nat in Hnth by lia.
        cbn in Hnth. now injection Hnth as <-.
      * right. split; [lia|].
        replace (Z.to_nat (i - s)) with (S (Z.to_nat (i - (s + 1)))) in Hnth
          by lia.
        exact Hnth.
Qed.

Lemma is_none_false (v : value) : is_none v = false <-> v <> VNone.
Proof. destruct v; cbn; split; congruence. Qed.

Lemma populated_iff (ws : Worksheet) (i j : Z) :
  populated ws i j <->
  1 <= i /\ 1 <= j /\
  exists row v, nth_error ws (Z.to_nat (i - 1)) = Some row /\
                nth_error row (Z.to_nat (j - 1)) = Some v /\
                is_none v = false.
Proof.
  unfold populated, cell_value. split.
  - intros H.
    destruct (1 <=? i) eqn:Ei; [|now elim H].
    destruct (1 <=? j) eqn:Ej; [|now elim H]. cbn [andb] in H.
    split; [lia|]. split; [lia|].
    destruct (nth_error ws (Z.to_nat (i - 1))) as [row|] eqn:Er.
    + rewrite (nth_error_nth ws _ [] Er) in H.
      destruct (nth_error row (Z.to_nat (j - 1))) as [v|] eqn:Ev.
      * rewrite (nth_error_nth row _ VNone Ev) in H.
        exists row, v. split; [reflexivity|]. split; [exact Ev|].
        now apply is_none_false.
      * now rewrite (nth_error_nth_None row _ VNone Ev) in H.
    + rewrite (nth_error_nth_None ws _ [] Er) in H.
      now destruct (Z.to_nat (j - 1)).
  - intros (Hi & Hj & row & v & Er & Ev & Hv).
    destruct (1 <=? i) eqn:Ei; [|lia]. destruct (1 <=? j) eqn:Ej; [|lia].
    cbn [andb]. rewrite (nth_error_nth ws _ [] Er).
    rewrite (nth_error_nth row _ VNone Ev). now apply is_none_false.
Qed.

Lemma row_cells_In (i' : Z) (row : list value) (i j : Z) :
  In (i, j) (row_cells i' row) <->
  i = i' /\ 1 <= j /\
  exists v, nth_error row (Z.to_nat (j - 1)) = Some v /\ is_none v = false.
Proof.
  unfold row_cells. rewrite in_flat_map. split.
  - intros ([c v] & Hin & Hcell). cbn [fst snd] in Hcell.
    apply enumerate_In in Hin. destruct Hin as [Hle Hnth].
    destruct (is_none v) eqn:Ev; [now elim Hcell|].
    destruct Hcell as [E|[]]. injection E as <- <-.
    split; [reflexivity|]. split; [lia|]. now exists v.
  - intros (-> & Hj & v & Hnth & Hv).
    exists (j, v). split; [apply enumerate_In; split; [lia | exact Hnth]|].
    cbn [fst snd]. rewrite Hv. now left.
Qed.

(** The collected pairs are the coordinates of the populated cells. *)
Lemma data_cells_In (ws : Worksheet) (i j : Z) :
  In (i, j) (data_cells ws) <-> populated ws i j.
Proof.
  unfold data_cells. rewrite in_flat_map, populated_iff. split.
  - intros ([i' row] & Hin & Hcell). cbn [fst snd] in Hcell.
    apply enumerate_In in Hin. destruct Hin as [Hle Hnth].
    apply row_cells_In in Hcell. destruct Hcell as (-> & Hj & v & Hv & Hn).
    split; [lia|]. split; [lia|]. now exists row, v.
  - intros (Hi & Hj & row & v & Er & Ev & Hv).
    exists (i, row). split; [apply enumerate_In; split; [lia | exact Er]|].
    cbn [fst snd]. apply row_cells_In. split; [reflexivity|].
    split; [lia|]. now exists v.
Qed.

(** Sorting keeps the elements. *)
Lemma insert_sorted_In (p q : Z * Z) (l : list (Z * Z)) :
  In q (insert_sorted p l) <-> q = p \/ In q l.
Proof.
  induction l as [|x t IH]; cbn [insert_sorted In].
  - split; intros [H|H]; auto.
  - destruct (pair_leb x p); cbn [In]; [rewrite IH|];
      split; intros H; intuition auto.
Qed.

Lemma sort_cells_In (q : Z * Z) (l : list (Z * Z)) :
  In q (sort_cells l) <-> In q l.
Proof.
  induction l as [|p t IH]; cbn [sort_cells In]; [tauto|].
  rewrite insert_sorted_In, IH. split; intros [H|H]; auto.
Qed.

(** The least and the greatest column of a list of cells. *)
Lemma fold_min_spec (l : list Z) (c0 : Z) :
  In (fold_left Z.min l c0) (c0 :: l) /\
  Forall (fun c => fold_left Z.min l c0 <= c) (c0 :: l).
Proof.
  revert c0. induction l as [|c t IH]; intros c0; cbn [fold_left].
  - split; [now left | constructor; [lia | constructor]].
  - destruct (IH (Z.min c0 c)) as [Hin Hall].
    inversion Hall as [|x xs Hx Hxs]; subst. split.
    + destruct Hin as [E|Hin]; [|right; now right].
      rewrite <- E. destruct (Z.min_spec c0 c) as [[_ ->]|[_ ->]];
        [now left | right; now left].
    + constructor; [lia|]. constructor; [lia | exact Hxs].
Qed.

Lemma fold_max_spec (l : list Z) (c0 : Z) :
  In (fold_left Z.max l c0) (c0 :: l) /\
  Forall (fun c => c <= fold_left Z.max l c0) (c0 :: l).
Proof.
  revert c0. induction l as [|c t IH]; intros c0; cbn [fold_left].
  - split; [now left | constructor; [lia | constructor]].
  - destruct (IH (Z.max c0 c)) as [Hin Hall].
    inversion Hall as [|x xs Hx Hxs]; subst. split.
    + destruct Hin as [E|Hin]; [|right; now right].
      rewrite <- E. destruct (Z.max_spec c0 c) as [[_ ->]|[_ ->]];
        [right; now left | now left].
    + constructor; [lia|]. constructor; [lia | exact Hxs].
Qed.

(** ** The column span of the generic detector *)

Lemma scan_cells_cols (ws : Worksheet) (min_rows : Z) (cmin cmax : Z)
  (cells : list (Z * Z)) :
  forall prev cur tbls,
    acc_start_col cur = cmin -> acc_end_col cur = cmax ->
    Forall (fun r => start_col r = cmin /\ end_col r = cmax) tbls ->
    acc_start_col (fst (scan_cells ws min_rows prev cur tbls cells)) = cmin /\
    acc_end_col (fst (scan_cells ws min_rows prev cur tbls cells)) = cmax /\
    Forall (fun r => start_col r = cmin /\ end_col r = cmax)
           (snd (scan_cells ws min_rows prev cur tbls cells)).
Proof.
  induction cells as [|[curr_row c] rest IH]; intros prev cur tbls Hs He H;
    cbn [scan_cells]; [now repeat split|].
  destruct (curr_row - prev >? 1); apply IH; cbn; auto.
  apply (save_region_Forall ws min_rows
           (fun _ _ sc ec => sc = cmin /\ ec = cmax)); [|exact H].
  intros _. now split.
Qed.

Lemma detect_tables_ws_cols (ws : Worksheet) (min_rows : Z) (r0 c0 : Z)
  (rest : list (Z * Z)) :
  sort_cells (data_cells ws) = (r0, c0) :: rest ->
  Forall (fun r => start_col r = min_col c0 rest /\ end_col r = max_col c0 rest)
         (detect_tables_ws ws min_rows).
Proof.
  intros Hsort. unfold detect_tables_ws. rewrite Hsort.
  match goal with
  | |- context [scan_cells ws min_rows r0 ?c [] rest] =>
      pose proof (scan_cells_cols ws min_rows (min_col c0 rest)
                    (max_col c0 rest) rest r0 c [] eq_refl eq_refl
                    (Forall_nil _)) as (Hs & He & H);
      destruct (scan_cells ws min_rows r0 c [] rest) as [cur' tbls]
  end.
  cbn [fst snd] in *.
  apply (save_region_Forall ws min_rows
           (fun _ _ sc ec => sc = min_col c0 rest /\ ec = max_col c0 rest));
    [|exact H].
  intros _. now split.
Qed.

Lemma sorted_cells_populated (ws : Worksheet) (l : list (Z * Z)) (c : Z) :
  sort_cells (data_cells ws) = l ->
  In c (map snd l) <-> exists r, populated ws r c.
Proof.
  intros <-. rewrite in_map_iff. split.
  - intros ([i j] & Hj & Hin). cbn [snd] in Hj. subst j.
    exists i. now apply data_cells_In, sort_cells_In.
  - intros [i Hpop]. exists (i, c). split; [reflexivity|].
    now apply sort_cells_In, data_cells_In.
Qed.

(** C1, as stated, fails: on the sheet with rows 1-2 populated in column 1
    and rows 4-5 in column 3, the region of rows 1-2 ends at column 3, where
    none of its own rows has a value. *)
Lemma detect_tables_span_not_of_own_run :
  In {| start_row := 1; end_row := 2; start_col := 1; end_col := 3;
        name := "a"; title_row := None |}
     (detect_tables_ws sheet_bands 2) /\
  ~ span_of_own_run sheet_bands
      {| start_row := 1; end_row := 2; start_col := 1; end_col := 3;
         name := "a"; title_row := None |}.
Proof.
  split; [vm_compute; now left|].
  intros [_ [[i [Hi Hpop]] _]]. cbn [start_row end_row end_col] in *.
  assert (Hcases : i = 1 \/ i = 2) by lia.
  destruct Hcases as [-> | ->]; apply Hpop; reflexivity.
Qed.

(** C1, amended: every region the generic detector returns has the column
    span of the whole sheet: its first column is the least column of a
    populated cell of the sheet and its last column the greatest, whatever
    rows the region covers. *)
Theorem detect_tables_span_of_sheet (wb : Workbook) (sheet_name : string)
  (ws : Worksheet) (min_rows : Z) (l : list TableRegion) (r : TableRegion) :
  wb_getitem wb sheet_name = Ok ws ->
  detect_tables wb sheet_name min_rows = Ok l -> In r l ->
  least_col_of_sheet ws (start_col r) /\
  greatest_col_of_sheet ws (end_col r).
Proof.
  intros Hget Hdet Hin. unfold detect_tables in Hdet. rewrite Hget in Hdet.
  cbn [bind] in Hdet. injection Hdet as <-.
  destruct (sort_cells (data_cells ws)) as [|[r0 c0] rest] eqn:Hsort.
  - unfold detect_tables_ws in Hin. rewrite Hsort in Hin. destruct Hin.
  - pose proof (detect_tables_ws_cols ws min_rows r0 c0 rest Hsort) as Hall.
    rewrite Forall_forall in Hall. destruct (Hall r Hin) as [-> ->].
    unfold min_col, max_col.
    destruct (fold_min_spec (map snd rest) c0) as [Hmin_in Hmin_le].
    destruct (fold_max_spec (map snd rest) c0) as [Hmax_in Hmax_le].
    rewrite Forall_forall in Hmin_le, Hmax_le.
    change (c0 :: map snd rest) with (map snd ((r0, c0) :: rest)) in *.
    split; (split;
      [ now apply (sorted_cells_populated ws _ _ Hsort)
      | intros i c' Hpop ]).
    + apply Hmin_le. apply (sorted_cells_populated ws _ _ Hsort). now exists i.
    + apply Hmax_le. apply (sorted_cells_populated ws _ _ Hsort). now exists i.
Qed.

Lemma detect_tables_span_of_sheet_witness :
  least_col_of_sheet sheet_bands 1 /\ greatest_col_of_sheet sheet_bands 3.
Proof.
  assert (Hin : In {| start_row := 4; end_row := 5; start_col := 1;
                      end_col := 3; name := "Table_2"; title_row := None |}
                   (detect_tables_ws sheet_bands 2))
    by (vm_compute; right; left; reflexivity).
  exact (detect_tables_span_of_sheet (one_sheet sheet_bands) "Sheet1"
           sheet_bands 2 (detect_tables_ws sheet_bands 2) _
           eq_refl eq_refl Hin).
Defined.

(** ** Order and separation of the regions of one pass *)

Lemma FOP_snoc {A : Type} (R : A -> A -> Prop) (l : list A) (y : A) :
  ForallOrdPairs R l -> Forall (fun x => R x y) l ->
  ForallOrdPairs R (l ++ [y]).
Proof.
  induction 1 as [|a l Ha Hl IH]; intros Hy; cbn [app].
  - constructor; constructor.
  - inversion Hy as [|x xs Hay Hxs]; subst.
    constructor; [|now apply IH].
    apply Forall_app. split; [exact Ha | now constructor].
Qed.

(** Appending a region that starts below the end of every region before
    keeps the list well separated. *)
Lemma well_separated_snoc (l : list TableRegion) (r : TableRegion) :
  well_separated l -> region_ok r ->
  Forall (fun x => end_row x < start_row r) l ->
  well_separated (l ++ [r]).
Proof.
  intros [Hok Hord] Hr Hbelow. split.
  - apply Forall_app. split; [exact Hok | now constructor].
  - apply FOP_snoc; [exact Hord|].
    rewrite Forall_forall in *. intros x Hx.
    specialize (Hok x Hx). specialize (Hbelow x Hx).
    unfold rows_before, region_ok in *. lia.
Qed.

Lemma Forall_below_weaken (l : list TableRegion) (a b : Z) :
  a <= b -> Forall (fun x => end_row x < a) l ->
  Forall (fun x => end_row x < b) l.
Proof.
  intros Hab H. eapply Forall_impl; [|exact H]. cbn. intros x Hx. lia.
Qed.

Lemma kv_inv_init (b : Z) : kv_inv kv_init b.
Proof. repeat split; constructor. Qed.

Lemma kv_inv_close (st : kv_state) (b s e : Z) :
  kv_inv st b -> current_span st = Some (s, e) ->
  well_separated (tables st ++ [kv_region st s e]) /\
  Forall (fun x => end_row x < b) (tables st ++ [kv_region st s e]).
Proof.
  intros (Hsep & Hb & Hspan) Hs. rewrite Hs in Hspan.
  destruct Hspan as (Hse & Heb & Hbelow). split.
  - apply well_separated_snoc; [exact Hsep | | exact Hbelow].
    unfold region_ok. cbn. lia.
  - apply Forall_app. split; [exact Hb|]. constructor; [exact Heb | constructor].
Qed.

Lemma kv_step_inv (st : kv_state) (b i : Z) (a c : value) :
  kv_inv st b -> b <= i -> kv_inv (kv_step st i a c) (i + 1).
Proof.
  intros Hinv Hbi. unfold kv_step.
  assert (Hkeep : forall l, Forall (fun x => end_row x < b) l ->
                            Forall (fun x => end_row x < i + 1) l)
    by (intros l; apply Forall_below_weaken; lia).
  destruct (negb (is_none a) && is_none c);
    [|destruct (negb (is_none a) && negb (is_none c));
      [|destruct (is_none a && is_none c)]].
  - destruct (current_span st) as [[s e]|] eqn:Hs.
    + destruct (kv_inv_close st b s e Hinv Hs) as [Hsep Hb].
      repeat split; cbn; auto; apply Hsep.
    + destruct Hinv as (Hsep & Hb & _). repeat split; cbn; auto; apply Hsep.
  - destruct Hinv as (Hsep & Hb & Hspan).
    split; [exact Hsep|]. split; [now apply Hkeep|]. cbn.
    destruct (current_span st) as [[s e]|].
    + destruct Hspan as (Hse & Heb & Hbelow). repeat split; [lia | lia | exact Hbelow].
    + repeat split; [lia | lia |].
      now apply (Forall_below_weaken _ b i).
  - destruct (current_span st) as [[s e]|] eqn:Hs.
    + destruct (kv_inv_close st b s e Hinv Hs) as [Hsep Hb].
      repeat split; cbn; auto; apply Hsep.
    + destruct Hinv as (Hsep & Hb & Hspan). rewrite Hs in Hspan.
      split; [exact Hsep|]. split; [now apply Hkeep|]. now rewrite Hs.
  - destruct Hinv as (Hsep & Hb & Hspan).
    split; [exact Hsep|]. split; [now apply Hkeep|].
    destruct (current_span st) as [[s e]|]; [|exact I].
    destruct Hspan as (Hse & Heb & Hbelow). repeat split; [lia | lia | exact Hbelow].
Qed.

Lemma kv_rows_inv (ws : Worksheet) (n : nat) :
  forall (a : Z) (st : kv_state),
    kv_inv st a ->
    kv_inv (fold_left (kv_row ws) (range a (a + Z.of_nat n)) st)
           (a + Z.of_nat n).
Proof.
  induction n as [|n IH]; intros a st Hinv.
  - rewrite range_nil by lia. cbn [fold_left].
    now replace (a + Z.of_nat 0) with a by lia.
  - rewrite range_cons by lia. cbn [fold_left].
    replace (a + Z.of_nat (S n)) with ((a + 1) + Z.of_nat n) by lia.
    apply IH. unfold kv_row. apply (kv_step_inv st a a); [exact Hinv | lia].
Qed.

Lemma kv_detect_well_separated (ws : Worksheet) :
  well_separated (kv_detect ws).
Proof.
  unfold kv_detect, kv_scan.
  pose proof (kv_rows_inv ws (Z.to_nat (max_row ws)) 1 kv_init
                (kv_inv_init 1)) as Hinv.
  replace (1 + Z.of_nat (Z.to_nat (max_row ws))) with (max_row ws + 1)
    in Hinv by (unfold max_row; lia).
  set (st := fold_left (kv_row ws) (range 1 (max_row ws + 1)) kv_init) in *.
  unfold kv_flush. destruct (current_span st) as [[s e]|] eqn:Hs.
  - now destruct (kv_inv_close st _ s e Hinv Hs).
  - apply Hinv.
Qed.

(** The sorted cells come in rows that never decrease. *)
Lemma pair_leb_total (p q : Z * Z) : pair_leb q p = false -> pair_le p q.
Proof. unfold pair_le, pair_leb. destruct p, q. cbn [fst snd]. lia. Qed.

Lemma pair_le_rows (p q : Z * Z) : pair_le p q -> fst p <= fst q.
Proof. unfold pair_le, pair_leb. lia. Qed.

Lemma insert_sorted_HdRel (a p : Z * Z) (l : list (Z * Z)) :
  pair_le a p -> HdRel pair_le a l -> HdRel pair_le a (insert_sorted p l).
Proof.
  intros Hap Hal. destruct l as [|q t]; cbn [insert_sorted].
  - now constructor.
  - inversion Hal; subst. destruct (pair_leb q p); now constructor.
Qed.

Lemma insert_sorted_Sorted (p : Z * Z) (l : list (Z * Z)) :
  Sorted pair_le l -> Sorted pair_le (insert_sorted p l).
Proof.
  induction 1 as [|q t Ht IH Hq]; cbn [insert_sorted].
  - repeat constructor.
  - destruct (pair_leb q p) eqn:E.
    + constructor; [exact IH|]. now apply insert_sorted_HdRel.
    + constructor; [now constructor|]. constructor. now apply pair_leb_total.
Qed.

Lemma sort_cells_Sorted (l : list (Z * Z)) : Sorted pair_le (sort_cells l).
Proof.
  induction l as [|p t IH]; cbn [sort_cells]; [constructor|].
  now apply insert_sorted_Sorted.
Qed.

Lemma Sorted_rows_ascend (l : list (Z * Z)) :
  forall p, Sorted pair_le (p :: l) -> rows_ascend (fst p) l.
Proof.
  induction l as [|[r c] t IH]; intros p Hs; cbn [rows_ascend]; [exact I|].
  inversion Hs as [|x xs Hxs Hhd]; subst. inversion Hhd; subst.
  split; [now apply (pair_le_rows p (r, c))|].
  now apply (IH (r, c)).
Qed.

Lemma save_region_inv (ws : Worksheet) (min_rows : Z)
  (tbls : list TableRegion) (cur : region_acc) (prev b : Z) :
  gen_inv tbls cur prev -> prev < b ->
  well_separated (save_region ws min_rows cur tbls) /\
  Forall (fun x => end_row x < b) (save_region ws min_rows cur tbls).
Proof.
  intros (Hsep & Hbelow & Hse & He & Hc) Hb. unfold save_region.
  assert (Hold : Forall (fun x => end_row x < b) tbls)
    by (apply (Forall_below_weaken _ (acc_start_row cur)); [lia | exact Hbelow]).
  destruct (_ >=? min_rows); [|now split]. split.
  - apply well_separated_snoc; [exact Hsep | | exact Hbelow].
    unfold region_ok. cbn. lia.
  - apply Forall_app. split; [exact Hold|].
    constructor; [cbn; lia | constructor].
Qed.

Lemma scan_cells_inv (ws : Worksheet) (min_rows : Z) (cells : list (Z * Z)) :
  forall prev cur tbls,
    rows_ascend prev cells -> gen_inv tbls cur prev ->
    exists prev',
      gen_inv (snd (scan_cells ws min_rows prev cur tbls cells))
              (fst (scan_cells ws min_rows prev cur tbls cells)) prev'.
Proof.
  induction cells as [|[curr_row c] rest IH]; intros prev cur tbls Hasc Hinv;
    cbn [scan_cells]; [now exists prev|].
  destruct Hasc as [Hle Hasc].
  destruct (curr_row - prev >? 1) eqn:Egap; apply IH; try exact Hasc.
  - destruct (save_region_inv ws min_rows tbls cur prev curr_row Hinv)
      as [Hsep Hbelow]; [lia|].
    destruct Hinv as (_ & _ & _ & _ & Hc).
    repeat split; cbn; auto; try lia; apply Hsep.
  - destruct Hinv as (Hsep & Hbelow & Hse & He & Hc).
    repeat split; cbn; auto; try lia; apply Hsep.
Qed.

Lemma min_col_le_max_col (c0 : Z) (rest : list (Z * Z)) :
  min_col c0 rest <= max_col c0 rest.
Proof.
  unfold min_col, max_col.
  destruct (fold_min_spec (map snd rest) c0) as [_ Hmin].
  destruct (fold_max_spec (map snd rest) c0) as [_ Hmax].
  inversion Hmin; subst. inversion Hmax; subst. lia.
Qed.

Lemma detect_tables_ws_well_separated (ws : Worksheet) (min_rows : Z) :
  well_separated (detect_tables_ws ws min_rows).
Proof.
  unfold detect_tables_ws.
  pose proof (sort_cells_Sorted (data_cells ws)) as Hsorted.
  destruct (sort_cells (data_cells ws)) as [|[r0 c0] rest];
    [split; constructor|].
  apply Sorted_rows_ascend in Hsorted. cbn [fst] in Hsorted.
  match goal with
  | |- context [scan_cells ws min_rows r0 ?c [] rest] =>
      destruct (scan_cells_inv ws min_rows rest r0 c [] Hsorted)
        as [prev' Hinv];
      [ repeat split; cbn; try constructor; try lia;
        apply min_col_le_max_col
      | destruct (scan_cells ws min_rows r0 c [] rest) as [cur' tbls] ]
  end.
  cbn [fst snd] in Hinv.
  now destruct (save_region_inv ws min_rows tbls cur' prev' (prev' + 1) Hinv);
    [lia|].
Qed.

(** C6: on every sheet of a workbook both detectors return, and what each
    returns in one call is well separated: every region has
    [start_row <= end_row] and [start_col <= end_col], and of any two
    regions the earlier one starts on a lower row and ends before the later
    one starts, so the rows of the regions are disjoint and [start_row]
    increases strictly. *)
Theorem detectors_well_separated (wb : Workbook) (sheet_name : string)
  (ws : Worksheet) (min_rows : Z) :
  wb_getitem wb sheet_name = Ok ws ->
  (exists l, detect_key_value_tables wb sheet_name = Ok l /\
             well_separated l) /\
  (exists l, detect_tables wb sheet_name min_rows = Ok l /\
             well_separated l).
Proof.
  intros Hget. unfold detect_key_value_tables, detect_tables.
  rewrite Hget. cbn [bind]. split.
  - exists (kv_detect ws). split; [reflexivity|].
    apply kv_detect_well_separated.
  - exists (detect_tables_ws ws min_rows). split; [reflexivity|].
    apply detect_tables_ws_well_separated.
Qed.

Lemma detectors_well_separated_witness :
  (exists l, detect_key_value_tables (one_sheet sheet_a) "Sheet1" = Ok l /\
             well_separated l) /\
  (exists l, detect_tables (one_sheet sheet_a) "Sheet1" 2 = Ok l /\
             well_separated l).
Proof.
  exact (detectors_well_separated (one_sheet sheet_a) "Sheet1" sheet_a 2
           eq_refl).
Defined.

(** ** Agreement of the two header decisions *)

Lemma count_all (f : value -> bool) (l : list value) :
  forallb f l = true -> count f l = Z.of_nat (List.length l).
Proof. intros H. unfold count. now rewrite forallb_filter_id. Qed.

Lemma forallb_map_cells (f : value -> bool) (g : Z -> value) (l : list Z) :
  (forall c, In c l -> f (g c) = true) -> forallb f (map g l) = true.
Proof.
  intros H. apply forallb_forall. intros v Hv.
  apply in_map_iff in Hv. destruct Hv as (c & <- & Hc). now apply H.
Qed.

Lemma is_str_not_none (v : value) : is_str v = true -> negb (is_none v) = true.
Proof. now destruct v. Qed.

Lemma text_row_then_numbers (row next_row : list value) :
  row <> [] -> List.length next_row = List.length row ->
  forallb is_str row = true -> forallb is_numeric next_row = true ->
  mostly_strings_then_numbers row next_row = true.
Proof.
  intros Hne Hlen Hstr Hnum. unfold mostly_strings_then_numbers.
  rewrite (count_all _ _ Hstr), (count_all _ _ Hnum), Hlen.
  destruct row; [congruence|]. cbn [List.length].
  apply andb_true_intro. split; [apply Z.leb_le | apply Z.ltb_lt]; lia.
Qed.

(** The two rows that decide, for a region with that shape on [ws]: the
    region starts inside the sheet, its first row is all text and the test
    on the first and the second row succeeds. *)
Lemma text_over_numbers_rows (ws : Worksheet) (r : TableRegion) :
  start_col r <= end_col r -> start_row r < end_row r ->
  text_over_numbers ws r ->
  1 <= start_row r /\ 1 <= start_col r /\
  forallb is_str
    (map (cell_value ws (start_row r)) (range (start_col r) (end_col r + 1)))
  = true /\
  mostly_strings_then_numbers
    (map (cell_value ws (start_row r)) (range (start_col r) (end_col r + 1)))
    (map (cell_value ws (start_row r + 1))
         (range (start_col r) (end_col r + 1)))
  = true.
Proof.
  intros Hcols Hrows [Htext Hnum].
  set (cols := range (start_col r) (end_col r + 1)).
  assert (Hcols_in : forall c, In c cols -> start_col r <= c <= end_col r)
    by (intros c Hc; apply range_In in Hc; lia).
  assert (Hcols_ne : cols <> [])
    by (unfold cols; rewrite range_cons by lia; discriminate).
  (* text in the top left cell: the region starts inside the sheet *)
  assert (Horigin : 1 <= start_row r /\ 1 <= start_col r).
  { specialize (Htext (start_col r) ltac:(lia)). unfold cell_value in Htext.
    destruct (1 <=? start_row r) eqn:E1; [|discriminate Htext].
    destruct (1 <=? start_col r) eqn:E2; [|discriminate Htext]. lia. }
  destruct Horigin as [Hr1 Hc1].
  assert (Hfirst : forallb is_str (map (cell_value ws (start_row r)) cols)
                   = true)
    by (apply forallb_map_cells; intros c Hc; apply Htext; auto).
  assert (Hsecond : forallb is_numeric
                      (map (cell_value ws (start_row r + 1)) cols) = true)
    by (apply forallb_map_cells; intros c Hc; apply Hnum; auto; lia).
  repeat split; try assumption.
  apply text_row_then_numbers; auto.
  - destruct cols; [congruence | discriminate].
  - now rewrite !length_map.
Qed.

(** C8: a region with at least one column and at least two rows, and the
    shape "first row all text, every further row all numbers". When the
    sheet that the header row locator reads (the named sheet) has this
    shape at the region, the locator returns the first row of the region;
    when the sheet that [read_table] reads (the active sheet) has it, the
    auto-detect path of [read_table] takes the values of that same first
    row as the column names and the rows below it as the data. Each
    procedure decides on the cells it reads, and on this shape both choose
    the first row. *)
Theorem header_decisions_agree (wb : Workbook) (sheet_name : string)
  (ws active : Worksheet) (r : TableRegion) (has_header : bool) :
  wb_getitem wb sheet_name = Ok ws -> wb_active wb = Some active ->
  start_col r <= end_col r -> start_row r < end_row r ->
  (text_over_numbers ws r ->
   detect_header_row wb sheet_name r = Ok (Some (start_row r))) /\
  (text_over_numbers active r ->
   read_table wb r has_header true
   = Ok (frame_with_columns
           (map (fun i => map (cell_value active i)
                              (range (start_col r) (end_col r + 1)))
                (range (start_row r + 1) (end_row r + 1)))
           (map (fun c => LVal (cell_value active (start_row r) c))
                (range (start_col r) (end_col r + 1))))).
Proof.
  intros Hget Hact Hcols Hrows. split; intros Hshape.
  - destruct (text_over_numbers_rows ws r Hcols Hrows Hshape)
      as (Hr1 & Hc1 & Hfirst & Hmost).
    unfold detect_header_row. rewrite Hget. cbn [bind].
    rewrite (range_cons 0) by lia. cbn [header_scan].
    replace (start_row r + 0) with (start_row r) by lia.
    rewrite read_row_ok by lia. cbn [bind].
    set (first_row := map (cell_value ws (start_row r)) _) in *.
    assert (Hfull : forallb (fun v => negb (is_none v)) first_row = true).
    { apply forallb_forall. intros v Hv. apply is_str_not_none.
      rewrite forallb_forall in Hfirst. now apply Hfirst. }
    rewrite Hfull. cbn [negb].
    destruct (start_row r <? end_row r) eqn:E; [|lia].
    rewrite read_row_ok by lia. cbn [bind].
    now rewrite Hmost.
  - destruct (text_over_numbers_rows active r Hcols Hrows Hshape)
      as (Hr1 & Hc1 & Hfirst & Hmost).
    rewrite (read_table_active wb active) by exact Hact.
    rewrite extract_data_ok by lia. cbn [bind]. unfold region_cells.
    rewrite (range_cons (start_row r)) by lia.
    rewrite (range_cons (start_row r + 1)) by lia.
    cbn [map table_frame hd].
    rewrite Hmost. cbn [andb List.length].
    destruct (1 <? _) eqn:E; [|apply Z.ltb_ge in E; lia].
    unfold frame_with_columns. cbn [List.length map].
    now rewrite map_map.
Qed.

Lemma sheet_c_text_over_numbers : text_over_numbers sheet_c (region 1 3 1 3).
Proof.
  split.
  - cbn [region start_col end_col start_row]. intros c Hc.
    assert (Hcases : c = 1 \/ c = 2 \/ c = 3) by lia.
    destruct Hcases as [-> | [-> | ->]]; reflexivity.
  - cbn [region start_col end_col start_row end_row]. intros i c Hi Hc.
    assert (Hi' : i = 2 \/ i = 3) by lia.
    assert (Hc' : c = 1 \/ c = 2 \/ c = 3) by lia.
    destruct Hi' as [-> | ->]; destruct Hc' as [-> | [-> | ->]]; reflexivity.
Qed.

Lemma header_decisions_agree_witness :
  detect_header_row (one_sheet sheet_c) "Sheet1" (region 1 3 1 3) = Ok (Some 1) /\
  read_table (one_sheet sheet_c) (region 1 3 1 3) false true
  = Ok {| df_columns := [LVal (VStr "Strike"); LVal (VStr "Spot");
                         LVal (VStr "Vol")];
          df_index := [LPos 0; LPos 1];
          df_values := [[VInt 50; VInt 48; VFloat "0.4"];
                        [VInt 52; VInt 48; VFloat "0.42"]] |}.
Proof.
  destruct (header_decisions_agree (one_sheet sheet_c) "Sheet1" sheet_c
              sheet_c (region 1 3 1 3) false eq_refl eq_refl
              ltac:(cbn; lia) ltac:(cbn; lia)) as [Hlocator Hreader].
  split.
  - exact (Hlocator sheet_c_text_over_numbers).
  - exact (Hreader sheet_c_text_over_numbers).
Defined.

(** The region of the sheet "Grid" has the shape there, and the locator
    returns its first row; the active sheet "Inputs" does not have the
    shape at these coordinates, and [read_table], which reads it, keeps
    all three rows as data. *)
Lemma header_decisions_on_two_sheets :
  text_over_numbers sheet_c (region 1 3 1 3) /\
  ~ text_over_numbers sheet_a (region 1 3 1 3) /\
  detect_header_row two_sheets "Grid" (region 1 3 1 3) = Ok (Some 1) /\
  read_table two_sheets (region 1 3 1 3) true true
  = Ok (frame [[VStr "Rates"; VNone; VNone];
               [VStr "Spot"; VInt 50; VNone];
               [VStr "Vol"; VFloat "0.4"; VNone]]).
Proof.
  split; [exact sheet_c_text_over_numbers|]. split.
  - intros [Htext _]. specialize (Htext 2). cbn in Htext.
    assert (H : false = true) by (apply Htext; lia). discriminate H.
  - vm_compute. split; reflexivity.
Qed.

(** ** The filter of [read_key_value_table] *)

Lemma keep_labelled_values (df : DataFrame) :
  Forall (fun row => is_none (hd VNone row) = false)
         (df_values (keep_labelled df)).
Proof.
  unfold keep_labelled. cbn [df_values]. apply Forall_forall.
  intros row Hrow. apply in_map_iff in Hrow.
  destruct Hrow as ([l row'] & <- & Hin). apply filter_In in Hin.
  destruct Hin as [_ Hkeep]. cbn [snd] in *.
  now destruct (is_none (hd VNone row')).
Qed.

Lemma keep_labelled_index (df : DataFrame) (l : label) :
  In l (df_index (keep_labelled df)) -> In l (df_index df).
Proof.
  unfold keep_labelled. cbn [df_index]. intros Hin.
  apply in_map_iff in Hin. destruct Hin as ([l' row] & <- & Hin).
  apply filter_In in Hin. destruct Hin as [Hin _].
  now apply in_combine_l in Hin.
Qed.

(** No row of what [read_key_value_table] returns is indexed by a missing
    label. *)
Lemma read_key_value_table_labelled (wb : Workbook) (sheet_name : string)
  (first last : option Z) (df : DataFrame) :
  read_key_value_table wb sheet_name first last = Ok df ->
  Forall (fun l => l <> LVal VNone) (df_index df).
Proof.
  unfold read_key_value_table.
  destruct (wb_getitem wb sheet_name) as [ws|e]; cbn [bind];
    [|discriminate].
  destruct (mapM _ _) as [rows|e]; cbn [bind]; [|discriminate].
  destruct (filter _ rows) as [|row data]; intros H; injection H as <-.
  - constructor.
  - set (kept := keep_labelled (frame (row :: data))).
    destruct (negb (df_empty kept)).
    + unfold set_first_index. cbn [df_index]. apply Forall_forall.
      intros l Hl. apply in_map_iff in Hl. destruct Hl as (x & <- & Hx).
      pose proof (keep_labelled_values (frame (row :: data))) as Hall.
      rewrite Forall_forall in Hall. specialize (Hall x Hx).
      intros E. injection E as E. now rewrite E in Hall.
    + apply Forall_forall. intros l Hl. apply keep_labelled_index in Hl.
      unfold frame, positions in Hl. cbn [df_index] in Hl.
      apply in_map_iff in Hl. destruct Hl as (n & <- & _). discriminate.
Qed.

(** ** The regions of the key-value detector *)

Lemma populated_is_none (ws : Worksheet) (i j : Z) :
  populated ws i j <-> is_none (cell_value ws i j) = false.
Proof. unfold populated. symmetry. apply is_none_false. Qed.

Lemma not_populated_is_none (ws : Worksheet) (i j : Z) :
  ~ populated ws i j <-> is_none (cell_value ws i j) = true.
Proof.
  rewrite populated_is_none. destruct (is_none (cell_value ws i j)); split;
    congruence.
Qed.

Lemma kv_tables_inv_nil (ws : Worksheet) : kv_tables_inv ws [].
Proof.
  repeat split; try constructor. intros k r H. now destruct k.
Qed.

(** Closing the open span keeps the regions as they should be. *)
Lemma kv_close_sound (ws : Worksheet) (st : kv_state) (b s e : Z) :
  kv_sound ws st b -> current_span st = Some (s, e) ->
  kv_tables_inv ws (tables st ++ [kv_region st s e]) /\
  Forall (fun x => end_row x + 1 < b + 1) (tables st ++ [kv_region st s e]).
Proof.
  intros (Hb & Htitle & Hspan & Hsound & Hgap & Hname) Hs.
  unfold kv_span_inv in Hspan. rewrite Hs in Hspan.
  destruct Hspan as (Hs1 & Hse & Heb & Hds & Hde & Hcolb & Hts & Hbelow).
  split; [split; [|split]|].
  - apply Forall_app. split; [exact Hsound|]. constructor; [|constructor].
    unfold kv_region_sound. cbn.
    repeat split; try lia; try apply Hds; try apply Hde.
    + intros i Hi. apply Hcolb. lia.
    + unfold kv_title_inv in Htitle.
      destruct (current_title_row st) as [t|]; [|exact I].
      destruct (current_title st) as [txt|]; [|contradiction].
      destruct Htitle as (Ht & Htr & _). specialize (Hts t eq_refl).
      split; [lia | exact Htr].
  - apply FOP_snoc; [exact Hgap|]. exact Hbelow.
  - intros k r Hk.
    destruct (Nat.lt_ge_cases k (List.length (tables st))) as [Hlt|Hge].
    + rewrite nth_error_app1 in Hk by exact Hlt. now apply Hname.
    + rewrite nth_error_app2 in Hk by exact Hge.
      destruct (k - List.length (tables st))%nat as [|n] eqn:Ek;
        [|now destruct n].
      cbn in Hk. injection Hk as <-.
      assert (k = List.length (tables st)) as -> by lia.
      unfold kv_name_at, kv_region, title_or_default, default_name. cbn.
      unfold kv_title_inv in Htitle.
      destruct (current_title_row st) as [t|];
        destruct (current_title st) as [txt|]; try contradiction;
        [|reflexivity].
      destruct Htitle as (_ & _ & ->). reflexivity.
  - apply Forall_app. split.
    + eapply Forall_impl; [|exact Hbelow]. cbn. intros x Hx. lia.
    + constructor; [cbn; lia | constructor].
Qed.

Lemma kv_title_inv_weaken (ws : Worksheet) (st : kv_state) (b : Z) :
  kv_title_inv ws st b -> kv_title_inv ws st (b + 1).
Proof.
  unfold kv_title_inv.
  destruct (current_title_row st), (current_title st); try tauto.
  intros (H1 & H2 & H3). repeat split; try lia; try apply H2. exact H3.
Qed.

Lemma kv_row_sound (ws : Worksheet) (st : kv_state) (b : Z) :
  1 <= b <= max_row ws -> kv_sound ws st b ->
  kv_sound ws (kv_row ws st b) (b + 1).
Proof.
  intros Hb Hinv.
  pose proof Hinv as (_ & Htitle & Hspan & Htbls).
  unfold kv_row, kv_step.
  destruct (is_none (cell_value ws b 1)) eqn:Ea;
    destruct (is_none (cell_value ws b 2)) eqn:Ec; cbn [negb andb].
  - (* blank row *)
    destruct (current_span st) as [[s e]|] eqn:Hs.
    + destruct (kv_close_sound ws st b s e Hinv Hs) as [Hclosed Hbelow].
      split; [lia|]. split; [now apply kv_title_inv_weaken|].
      split; [exact Hbelow | exact Hclosed].
    + split; [lia|]. split; [now apply kv_title_inv_weaken|].
      split; [|exact Htbls].
      unfold kv_span_inv in *. rewrite Hs in *.
      eapply Forall_impl; [|exact Hspan]. cbn. intros x Hx. lia.
  - (* a value without a label *)
    split; [lia|]. split; [now apply kv_title_inv_weaken|].
    split; [|exact Htbls].
    unfold kv_span_inv in *. destruct (current_span st) as [[s e]|].
    + destruct Hspan as (H1 & H2 & H3 & H4 & H5 & H6 & H7 & H8).
      repeat split; try lia; try apply H4; try apply H5; try exact H7;
        try exact H8.
      intros i Hi. destruct (Z.eq_dec i b) as [->|Hne];
        [now apply populated_is_none | apply H6; lia].
    + eapply Forall_impl; [|exact Hspan]. cbn. intros x Hx. lia.
  - (* title row *)
    assert (Htr : title_row_of ws b)
      by (split; [now apply populated_is_none
                 | now apply not_populated_is_none]).
    split; [lia|]. split; [|split].
    + unfold kv_title_inv. cbn. repeat split; try lia; apply Htr.
    + unfold kv_span_inv. cbn.
      destruct (current_span st) as [[s e]|] eqn:Hs.
      * now destruct (kv_close_sound ws st b s e Hinv Hs).
      * unfold kv_span_inv in Hspan. rewrite Hs in Hspan.
        eapply Forall_impl; [|exact Hspan]. cbn. intros x Hx. lia.
    + cbn. destruct (current_span st) as [[s e]|] eqn:Hs; [|exact Htbls].
      now destruct (kv_close_sound ws st b s e Hinv Hs).
  - (* data row *)
    assert (Hdr : data_row ws b)
      by (split; now apply populated_is_none).
    split; [lia|]. split; [now apply kv_title_inv_weaken|].
    split; [|exact Htbls].
    unfold kv_span_inv in *. cbn.
    destruct (current_span st) as [[s e]|].
    + destruct Hspan as (H1 & H2 & H3 & H4 & H5 & H6 & H7 & H8).
      repeat split; try lia; try apply H4; try apply Hdr; try exact H7;
        try exact H8.
      intros i Hi. destruct (Z.eq_dec i b) as [->|Hne];
        [apply Hdr | apply H6; lia].
    + repeat split; try lia; try apply Hdr; try exact Hspan.
      * intros i Hi. assert (i = b) as -> by lia. apply Hdr.
      * intros t Ht. unfold kv_title_inv in Htitle. rewrite Ht in Htitle.
        destruct (current_title st); [|contradiction]. lia.
Qed.

Lemma kv_rows_sound (ws : Worksheet) (n : nat) :
  forall (a : Z) (st : kv_state),
    1 <= a -> a + Z.of_nat n <= max_row ws + 1 ->
    kv_sound ws st a ->
    kv_sound ws (fold_left (kv_row ws) (range a (a + Z.of_nat n)) st)
             (a + Z.of_nat n).
Proof.
  induction n as [|n IH]; intros a st Ha Hn Hinv.
  - rewrite range_nil by lia. cbn [fold_left].
    now replace (a + Z.of_nat 0) with a by lia.
  - rewrite range_cons by lia. cbn [fold_left].
    replace (a + Z.of_nat (S n)) with ((a + 1) + Z.of_nat n) in * by lia.
    apply IH; [lia | lia |]. apply kv_row_sound; [lia | exact Hinv].
Qed.

Lemma kv_scan_sound (ws : Worksheet) :
  kv_sound ws (kv_scan ws) (max_row ws + 1).
Proof.
  unfold kv_scan.
  pose proof (kv_rows_sound ws (Z.to_nat (max_row ws)) 1 kv_init) as H.
  replace (1 + Z.of_nat (Z.to_nat (max_row ws))) with (max_row ws + 1) in H
    by (unfold max_row; lia).
  apply H; [lia | lia |].
  split; [unfold max_row; lia|]. split; [exact I|].
  split; [constructor | apply kv_tables_inv_nil].
Qed.

Lemma kv_detect_sound (ws : Worksheet) : kv_tables_inv ws (kv_detect ws).
Proof.
  pose proof (kv_scan_sound ws) as Hinv. unfold kv_detect, kv_flush.
  destruct (current_span (kv_scan ws)) as [[s e]|] eqn:Hs.
  - now destruct (kv_close_sound ws _ _ s e Hinv Hs).
  - apply Hinv.
Qed.

(** X1: every region of the key-value detector spans columns 1 to 3 and lies
    inside the rows of the sheet; its title row, when it has one, is a row
    above its first row with a value in column A and none in column B. *)
Theorem kv_regions_geometry (wb : Workbook) (sheet_name : string)
  (ws : Worksheet) (l : list TableRegion) (r : TableRegion) :
  wb_getitem wb sheet_name = Ok ws ->
  detect_key_value_tables wb sheet_name = Ok l -> In r l ->
  start_col r = 1 /\ end_col r = 3 /\
  1 <= start_row r /\ start_row r <= end_row r /\ end_row r <= max_row ws /\
  (forall t, title_row r = Some t ->
             1 <= t < start_row r /\ populated ws t 1 /\ ~ populated ws t 2).
Proof.
  intros Hget Hdet Hin. unfold detect_key_value_tables in Hdet.
  rewrite Hget in Hdet. cbn [bind] in Hdet. injection Hdet as <-.
  destruct (kv_detect_sound ws) as (Hsound & _ & _).
  rewrite Forall_forall in Hsound.
  destruct (Hsound r Hin) as (H1 & H2 & H3 & H4 & H5 & _ & _ & _ & H9).
  repeat split; try assumption; destruct (title_row r) as [t'|];
    try discriminate; injection H as <-; destruct H9 as [Ht Htr];
    try lia; apply Htr.
Qed.

Lemma kv_regions_geometry_witness :
  1 = 1 /\ 3 = 3 /\ 1 <= 6 /\ 6 <= 6 /\ 6 <= max_row sheet_a /\
  (forall t, Some 5 = Some t ->
             1 <= t < 6 /\ populated sheet_a t 1 /\ ~ populated sheet_a t 2).
Proof.
  assert (Hin : In {| start_row := 6; end_row := 6; start_col := 1;
                      end_col := 3; name := "Greeks"; title_row := Some 5 |}
                   (kv_detect sheet_a))
    by (vm_compute; right; left; reflexivity).
  exact (kv_regions_geometry (one_sheet sheet_a) "Sheet1" sheet_a
           (kv_detect sheet_a) _ eq_refl eq_refl Hin).
Defined.

(** X2: the first and the last row of every region of the key-value
    detector have a value in column A and in column B, and every row of the
    region has a value in column B: no blank row and no title row lies
    inside a region. *)
Theorem kv_regions_rows (wb : Workbook) (sheet_name : string)
  (ws : Worksheet) (l : list TableRegion) (r : TableRegion) :
  wb_getitem wb sheet_name = Ok ws ->
  detect_key_value_tables wb sheet_name = Ok l -> In r l ->
  data_row ws (start_row r) /\ data_row ws (end_row r) /\
  (forall i, start_row r <= i <= end_row r -> populated ws i 2).
Proof.
  intros Hget Hdet Hin. unfold detect_key_value_tables in Hdet.
  rewrite Hget in Hdet. cbn [bind] in Hdet. injection Hdet as <-.
  destruct (kv_detect_sound ws) as (Hsound & _ & _).
  rewrite Forall_forall in Hsound.
  destruct (Hsound r Hin) as (_ & _ & _ & _ & _ & H6 & H7 & H8 & _).
  exact (conj H6 (conj H7 H8)).
Qed.

Lemma kv_regions_rows_witness :
  data_row sheet_gap 1 /\ data_row sheet_gap 3 /\
  (forall i, 1 <= i <= 3 -> populated sheet_gap i 2).
Proof.
  exact (kv_regions_rows (one_sheet sheet_gap) "Sheet1" sheet_gap
           (kv_detect sheet_gap) _ eq_refl eq_refl (or_introl eq_refl)).
Defined.

Lemma placeholder_not_empty (n : Z) :
  String.append "Table_" (str_int n) <> "".
Proof. cbn. discriminate. Qed.

(** X3: the [k]-th region of the key-value detector (from 0) is named by
    the stripped text of column A of its title row, or by "Table_" followed
    by [k + 1] when it has no title row or that text is empty; its name is
    never empty. *)
Theorem kv_regions_names (wb : Workbook) (sheet_name : string)
  (ws : Worksheet) (l : list TableRegion) (k : nat) (r : TableRegion) :
  wb_getitem wb sheet_name = Ok ws ->
  detect_key_value_tables wb sheet_name = Ok l -> nth_error l k = Some r ->
  name r = kv_name_at ws k r /\ name r <> "".
Proof.
  intros Hget Hdet Hk. unfold detect_key_value_tables in Hdet.
  rewrite Hget in Hdet. cbn [bind] in Hdet. injection Hdet as <-.
  destruct (kv_detect_sound ws) as (_ & _ & Hname).
  specialize (Hname k r Hk). split; [exact Hname|].
  rewrite Hname. unfold kv_name_at.
  destruct (title_row r) as [t|]; [|apply placeholder_not_empty].
  destruct (title_text ws t =? "")%string eqn:E;
    [apply placeholder_not_empty | now apply String.eqb_neq].
Qed.

Lemma kv_regions_names_witness :
  "Table_1" = kv_name_at sheet_gap 0
                {| start_row := 1; end_row := 3; start_col := 1; end_col := 3;
                   name := "Table_1"; title_row := None |} /\
  "Table_1" <> "".
Proof.
  exact (kv_regions_names (one_sheet sheet_gap) "Sheet1" sheet_gap
           (kv_detect sheet_gap) 0 _ eq_refl eq_refl eq_refl).
Defined.

(** ** When the key-value detector finds nothing *)

Lemma kv_step_found_keep (st : kv_state) (i : Z) (a c : value) :
  kv_found st -> kv_found (kv_step st i a c).
Proof.
  unfold kv_found, kv_step. intros H.
  destruct st as [tbls title trow [[s e]|]]; cbn in *;
    (destruct (negb (is_none a) && is_none c);
     [|destruct (negb (is_none a) && negb (is_none c));
       [|destruct (is_none a && is_none c)]]); cbn;
    try exact H;
    try (right; discriminate);
    try (left; intros E; now apply app_eq_nil in E).
Qed.

Lemma kv_step_found_data (st : kv_state) (i : Z) (a c : value) :
  is_none a = false -> is_none c = false -> kv_found (kv_step st i a c).
Proof.
  intros Ha Hc. unfold kv_found, kv_step. rewrite Ha, Hc. cbn.
  right. destruct (current_span st) as [[s e]|]; discriminate.
Qed.

Lemma kv_rows_found (ws : Worksheet) (rows : list Z) :
  forall st,
    kv_found st \/ (exists i, In i rows /\ data_row ws i) ->
    kv_found (fold_left (kv_row ws) rows st).
Proof.
  induction rows as [|i rest IH]; intros st H; cbn [fold_left].
  - destruct H as [H | (i & [] & _)]. exact H.
  - apply IH. destruct H as [H | (j & [-> | Hj] & Hdata)].
    + left. now apply kv_step_found_keep.
    + left. destruct Hdata as [Ha Hc].
      apply kv_step_found_data; now apply populated_is_none.
    + right. now exists j.
Qed.

Lemma kv_flush_found (st : kv_state) : kv_found st -> kv_flush st <> [].
Proof.
  unfold kv_found, kv_flush. intros H.
  destruct (current_span st) as [[s e]|].
  - intros E. now apply app_eq_nil in E.
  - destruct H as [H|H]; [exact H | congruence].
Qed.

(** X5: the key-value detector returns no region exactly when no row of the
    sheet has a value in both column A and column B. *)
Theorem kv_detect_empty_iff (wb : Workbook) (sheet_name : string)
  (ws : Worksheet) :
  wb_getitem wb sheet_name = Ok ws ->
  (detect_key_value_tables wb sheet_name = Ok [] <->
   forall i, ~ data_row ws i).
Proof.
  intros Hget. unfold detect_key_value_tables. rewrite Hget. cbn [bind].
  split.
  - intros H i Hdata. injection H as H.
    assert (Hrange : 1 <= i <= max_row ws).
    { destruct Hdata as [Ha _]. unfold populated in Ha.
      destruct (Z_lt_le_dec (max_row ws) i) as [Hgt|Hle];
        [now rewrite cell_value_past_extent in Ha by (left; exact Hgt)|].
      unfold cell_value in Ha.
      destruct (1 <=? i) eqn:E; [lia | now elim Ha]. }
    revert H. apply kv_flush_found. apply kv_rows_found. right.
    exists i. split; [apply range_In; lia | exact Hdata].
  - intros Hnone. f_equal.
    destruct (kv_detect ws) as [|r l] eqn:E; [reflexivity|].
    destruct (kv_detect_sound ws) as (Hsound & _ & _).
    rewrite E in Hsound. inversion Hsound as [|x xs Hr _]; subst.
    destruct Hr as (_ & _ & _ & _ & _ & Hdata & _).
    now elim (Hnone (start_row r)).
Qed.

Lemma kv_detect_empty_iff_witness :
  detect_key_value_tables (one_sheet sheet_bands) "Sheet1" = Ok [] /\
  (forall i, ~ data_row sheet_bands i).
Proof.
  split; [reflexivity|].
  exact (proj1 (kv_detect_empty_iff (one_sheet sheet_bands) "Sheet1"
                  sheet_bands eq_refl) eq_refl).
Defined.

(** ** The regions of the generic detector *)

Lemma rows_ascend_ge (cells : list (Z * Z)) :
  forall prev p, rows_ascend prev cells -> In p cells -> prev <= fst p.
Proof.
  induction cells as [|[r c] rest IH]; intros prev p Hasc Hin; [destruct Hin|].
  destruct Hasc as [Hle Hasc]. destruct Hin as [<- | Hin]; [exact Hle|].
  specialize (IH r p Hasc Hin). lia.
Qed.

Section GenericSound.

Variable ws : Worksheet.
Variable min_rows : Z.
Variable all : list (Z * Z).
Hypothesis all_populated : forall i c, populated ws i c <-> In (i, c) all.

Lemma save_region_band (cur : region_acc) (tbls : list TableRegion)
  (prev : Z) :
  band ws (acc_start_row cur) (acc_end_row cur) ->
  Forall (fun r => band ws (start_row r) (end_row r)) tbls ->
  Forall (fun r => end_row r + 1 < acc_start_row cur) tbls ->
  ForallOrdPairs gapped tbls ->
  Forall (fun r => band ws (start_row r) (end_row r))
         (save_region ws min_rows cur tbls) /\
  Forall (fun r => end_row r <= acc_end_row cur)
         (save_region ws min_rows cur tbls) /\
  ForallOrdPairs gapped (save_region ws min_rows cur tbls).
Proof.
  intros Hband Hall Hbelow Hgap. unfold save_region.
  assert (Hold : Forall (fun r => end_row r <= acc_end_row cur) tbls).
  { eapply Forall_impl; [|exact Hbelow]. cbn. intros x Hx.
    destruct Hband as (_ & Hse & _). lia. }
  destruct (_ >=? min_rows); [|now repeat split].
  split; [|split].
  - apply Forall_app. split; [exact Hall|]. now constructor.
  - apply Forall_app. split; [exact Hold|]. constructor; [cbn; lia|constructor].
  - apply FOP_snoc; [exact Hgap | exact Hbelow].
Qed.

Lemma scan_cells_sound (cells : list (Z * Z)) :
  forall done prev cur tbls,
    all = done ++ cells ->
    gen_sound ws done cells cur tbls prev ->
    exists prev',
      gen_sound ws all []
                (fst (scan_cells ws min_rows prev cur tbls cells))
                (snd (scan_cells ws min_rows prev cur tbls cells)) prev'.
Proof.
  induction cells as [|[curr_row c] rest IH];
    intros done prev cur tbls Hsplit Hinv; cbn [scan_cells].
  - exists prev. rewrite app_nil_r in Hsplit. now subst done.
  - destruct Hinv as (Hdone & [Hle Hasc] & Hs1 & Hsp & He & Hrows & Hblank
                      & Hbands & Hbelow & Hgap).
    assert (Hcell : populated ws curr_row c).
    { apply all_populated. rewrite Hsplit. apply in_or_app. right. now left. }
    assert (Hsplit' : all = (done ++ [(curr_row, c)]) ++ rest)
      by (now rewrite <- app_assoc).
    assert (Hdone' : Forall (fun p => fst p <= curr_row)
                            (done ++ [(curr_row, c)])).
    { apply Forall_app. split.
      - eapply Forall_impl; [|exact Hdone]. cbn. intros p Hp. lia.
      - constructor; [cbn; lia | constructor]. }
    destruct (curr_row - prev >? 1) eqn:Egap;
      apply (IH _ _ _ _ Hsplit').
    + (* a gap: rows prev+1 .. curr_row-1 hold nothing *)
      assert (Hbetween : forall i, prev < i < curr_row -> blank_row ws i).
      { intros i Hi c' Hpop. apply all_populated in Hpop.
        rewrite Hsplit in Hpop. apply in_app_or in Hpop.
        destruct Hpop as [Hin | [Hin | Hin]].
        - rewrite Forall_forall in Hdone. specialize (Hdone _ Hin).
          cbn in Hdone. lia.
        - injection Hin as Hin _. lia.
        - pose proof (rows_ascend_ge rest curr_row _ Hasc Hin) as Hge.
          cbn in Hge. lia. }
      assert (Hband : band ws (acc_start_row cur) (acc_end_row cur)).
      { rewrite He. repeat split; try assumption.
        apply Hbetween. lia. }
      destruct (save_region_band cur tbls prev Hband Hbands Hbelow Hgap)
        as (Hb1 & Hb2 & Hb3).
      repeat split; cbn [acc_start_row acc_end_row]; try assumption; try lia.
      * intros i Hi. assert (i = curr_row) as -> by lia. now exists c.
      * apply Hbetween. lia.
      * eapply Forall_impl; [|exact Hb2]. cbn. intros x Hx. lia.
    + (* the same row or the next one *)
      repeat split; cbn [acc_start_row acc_end_row]; try assumption; try lia.
      intros i Hi. destruct (Z.eq_dec i curr_row) as [->|Hne];
        [now exists c | apply Hrows; lia].
Qed.

End GenericSound.

Lemma sorted_cells_all (ws : Worksheet) (i c : Z) :
  populated ws i c <-> In (i, c) (sort_cells (data_cells ws)).
Proof. now rewrite sort_cells_In, data_cells_In. Qed.

Lemma Sorted_first_row (l : list (Z * Z)) (p q : Z * Z) :
  Sorted pair_le (p :: l) -> In q (p :: l) -> fst p <= fst q.
Proof.
  intros Hs [<- | Hin]; [lia|].
  apply Sorted_rows_ascend in Hs. now apply (rows_ascend_ge l).
Qed.

(** What [detect_tables] returns on the sheet: bands of rows, each ending
    more than one row above the next. *)
Lemma detect_tables_ws_sound (ws : Worksheet) (min_rows : Z) :
  Forall (fun r => band ws (start_row r) (end_row r))
         (detect_tables_ws ws min_rows) /\
  ForallOrdPairs gapped (detect_tables_ws ws min_rows).
Proof.
  unfold detect_tables_ws.
  pose proof (sort_cells_Sorted (data_cells ws)) as Hsorted.
  pose proof (sorted_cells_all ws) as Hall.
  destruct (sort_cells (data_cells ws)) as [|[r0 c0] rest] eqn:Hsort;
    [split; constructor|].
  assert (Hr0 : populated ws r0 c0) by (apply Hall; now left).
  assert (Hr0_ge : 1 <= r0) by (apply populated_iff in Hr0; lia).
  match goal with
  | |- context [scan_cells ws min_rows r0 ?c [] rest] =>
      destruct (scan_cells_sound ws min_rows _ Hall rest [(r0, c0)] r0 c [])
        as [prev' Hinv];
      [ reflexivity | | destruct (scan_cells ws min_rows r0 c [] rest)
                          as [cur' tbls] ]
  end.
  - repeat split; cbn [acc_start_row acc_end_row]; try lia;
      try constructor; try (cbn; lia); try constructor.
    + now apply Sorted_rows_ascend in Hsorted.
    + intros i Hi. assert (i = r0) as -> by lia. now exists c0.
    + intros c Hpop. apply Hall in Hpop.
      pose proof (Sorted_first_row _ _ _ Hsorted Hpop) as Hge. cbn in Hge. lia.
  - cbn [fst snd] in Hinv.
    destruct Hinv as (Hdone & _ & Hs1 & Hsp & He & Hrows & Hblank
                      & Hbands & Hbelow & Hgap).
    assert (Hband : band ws (acc_start_row cur') (acc_end_row cur')).
    { rewrite He. repeat split; try assumption.
      intros c Hpop. apply Hall in Hpop.
      rewrite Forall_forall in Hdone. specialize (Hdone _ Hpop).
      cbn in Hdone. lia. }
    destruct (save_region_band ws min_rows cur' tbls prev' Hband Hbands
                Hbelow Hgap) as (Hb1 & _ & Hb3).
    now split.
Qed.

(** X4: between any two regions of one pass of either detector lies at
    least one row that belongs to neither: the earlier region ends more
    than one row above the start of the later one. *)
Theorem detectors_gapped (wb : Workbook) (sheet_name : string)
  (ws : Worksheet) (min_rows : Z) :
  wb_getitem wb sheet_name = Ok ws ->
  (exists l, detect_key_value_tables wb sheet_name = Ok l /\
             ForallOrdPairs gapped l) /\
  (exists l, detect_tables wb sheet_name min_rows = Ok l /\
             ForallOrdPairs gapped l).
Proof.
  intros Hget. unfold detect_key_value_tables, detect_tables.
  rewrite Hget. cbn [bind]. split.
  - exists (kv_detect ws). split; [reflexivity | apply kv_detect_sound].
  - exists (detect_tables_ws ws min_rows).
    split; [reflexivity | apply detect_tables_ws_sound].
Qed.

Lemma detectors_gapped_witness :
  (exists l, detect_key_value_tables (one_sheet sheet_a) "Sheet1" = Ok l /\
             ForallOrdPairs gapped l) /\
  (exists l, detect_tables (one_sheet sheet_a) "Sheet1" 1 = Ok l /\
             ForallOrdPairs gapped l).
Proof.
  exact (detectors_gapped (one_sheet sheet_a) "Sheet1" sheet_a 1 eq_refl).
Defined.

(** X6: every region of the generic detector is a band of the sheet: it
    starts at row 1 or below, each of its rows holds a value in some
    column, and the row right above it and the row right below it hold no
    value. *)
Theorem detect_tables_bands (wb : Workbook) (sheet_name : string)
  (ws : Worksheet) (min_rows : Z) (l : list TableRegion) (r : TableRegion) :
  wb_getitem wb sheet_name = Ok ws ->
  detect_tables wb sheet_name min_rows = Ok l -> In r l ->
  1 <= start_row r /\ start_row r <= end_row r /\
  (forall i, start_row r <= i <= end_row r -> exists c, populated ws i c) /\
  (forall c, ~ populated ws (start_row r - 1) c) /\
  (forall c, ~ populated ws (end_row r + 1) c).
Proof.
  intros Hget Hdet Hin. unfold detect_tables in Hdet. rewrite Hget in Hdet.
  cbn [bind] in Hdet. injection Hdet as <-.
  destruct (detect_tables_ws_sound ws min_rows) as [Hbands _].
  rewrite Forall_forall in Hbands. exact (Hbands r Hin).
Qed.

Lemma detect_tables_bands_witness :
  1 <= 4 /\ 4 <= 5 /\
  (forall i, 4 <= i <= 5 -> exists c, populated sheet_bands i c) /\
  (forall c, ~ populated sheet_bands (4 - 1) c) /\
  (forall c, ~ populated sheet_bands (5 + 1) c).
Proof.
  assert (Hin : In {| start_row := 4; end_row := 5; start_col := 1;
                      end_col := 3; name := "Table_2"; title_row := None |}
                   (detect_tables_ws sheet_bands 2))
    by (vm_compute; right; left; reflexivity).
  exact (detect_tables_bands (one_sheet sheet_bands) "Sheet1" sheet_bands 2
           (detect_tables_ws sheet_bands 2) _ eq_refl eq_refl Hin).
Defined.

Lemma data_cells_nil (ws : Worksheet) :
  (forall i c, ~ populated ws i c) <-> sort_cells (data_cells ws) = [].
Proof.
  split.
  - intros Hnone. destruct (sort_cells (data_cells ws)) as [|[i c] rest] eqn:E;
      [reflexivity|].
    elim (Hnone i c). apply sorted_cells_all. rewrite E. now left.
  - intros E i c Hpop. apply sorted_cells_all in Hpop. now rewrite E in Hpop.
Qed.

(** X7: on a sheet without any value the generic detector returns no
    region, whatever [min_rows]; with [min_rows] at most 1 it returns no
    region only on such a sheet. *)
Theorem detect_tables_empty (wb : Workbook) (sheet_name : string)
  (ws : Worksheet) (min_rows : Z) :
  wb_getitem wb sheet_name = Ok ws ->
  ((forall i c, ~ populated ws i c) ->
   detect_tables wb sheet_name min_rows = Ok []) /\
  (min_rows <= 1 -> detect_tables wb sheet_name min_rows = Ok [] ->
   forall i c, ~ populated ws i c).
Proof.
  intros Hget. unfold detect_tables. rewrite Hget. cbn [bind]. split.
  - intros Hnone. apply data_cells_nil in Hnone.
    unfold detect_tables_ws. now rewrite Hnone.
  - intros Hmin Hdet. injection Hdet as Hdet. apply data_cells_nil.
    pose proof (sort_cells_Sorted (data_cells ws)) as Hsorted.
    pose proof (sorted_cells_all ws) as Hall.
    unfold detect_tables_ws in Hdet.
    destruct (sort_cells (data_cells ws)) as [|[r0 c0] rest] eqn:Hsort;
      [reflexivity | exfalso].
    assert (Hr0 : 1 <= r0)
      by (assert (Hp : populated ws r0 c0) by (apply Hall; now left);
          apply populated_iff in Hp; lia).
    apply Sorted_rows_ascend in Hsorted. cbn [fst] in Hsorted.
    match type of Hdet with
    | context [scan_cells ws min_rows r0 ?c [] rest] =>
        destruct (scan_cells_inv ws min_rows rest r0 c [] Hsorted)
          as [prev' Hinv];
        [ repeat split; cbn; try constructor; try lia;
          apply min_col_le_max_col
        | destruct (scan_cells ws min_rows r0 c [] rest) as [cur' tbls] ]
    end.
    cbn [fst snd] in Hinv. destruct Hinv as (_ & _ & Hse & _ & _).
    unfold save_region in Hdet.
    destruct (_ >=? min_rows) eqn:E; [|lia].
    now apply app_eq_nil in Hdet.
Qed.

Lemma detect_tables_empty_witness :
  detect_tables (one_sheet [[VNone; VNone]; [VNone]]) "Sheet1" 2 = Ok [] /\
  (forall i c, ~ populated [[VNone; VNone]; [VNone]] i c).
Proof.
  split.
  - exact (proj1 (detect_tables_empty (one_sheet [[VNone; VNone]; [VNone]])
                    "Sheet1" _ 2 eq_refl)
                 (proj2 (data_cells_nil [[VNone; VNone]; [VNone]]) eq_refl)).
  - exact (proj2 (detect_tables_empty (one_sheet [[VNone; VNone]; [VNone]])
                    "Sheet1" _ 1 eq_refl)
                 ltac:(lia) eq_refl).
Defined.

(** ** The header row locator: where its answer lies *)

Lemma header_scan_bounds (ws : Worksheet) (r : TableRegion)
  (offsets : list Z) :
  Forall (fun o => 0 <= o < 3 /\ start_row r + o <= end_row r) offsets ->
  forall res, header_scan ws r offsets = Ok res ->
    match res with
    | Some h => start_row r <= h <= end_row r /\ h < start_row r + 3
    | None => end_row r <= start_row r
    end.
Proof.
  induction offsets as [|o rest IH]; intros Hall res Hres;
    cbn [header_scan] in Hres.
  - injection Hres as <-.
    destruct (end_row r >? start_row r) eqn:E; lia.
  - inversion Hall as [|x xs Ho Hrest]; subst.
    destruct (read_row ws r (start_row r + o)) as [row|e]; cbn [bind] in Hres;
      [|discriminate Hres].
    destruct (negb (forallb (fun v => negb (is_none v)) row));
      [now apply IH|].
    destruct (start_row r + o <? end_row r).
    + destruct (read_row ws r (start_row r + o + 1)) as [next|e];
        cbn [bind] in Hres; [|discriminate Hres].
      destruct (mostly_strings_then_numbers row next);
        [injection Hres as <-; lia|].
      destruct ((o =? 0) && forallb is_str row);
        [injection Hres as <-; lia | now apply IH].
    + cbn [bind] in Hres.
      destruct ((o =? 0) && forallb is_str row);
        [injection Hres as <-; lia | now apply IH].
Qed.

(** X8: a header row returned by the locator is one of the first three rows
    of the region; the locator answers "no header" only for a region of at
    most one row. *)
Theorem detect_header_row_bounds (wb : Workbook) (sheet_name : string)
  (r : TableRegion) (res : option Z) :
  detect_header_row wb sheet_name r = Ok res ->
  match res with
  | Some h => start_row r <= h <= end_row r /\ h < start_row r + 3
  | None => end_row r <= start_row r
  end.
Proof.
  unfold detect_header_row.
  destruct (wb_getitem wb sheet_name) as [ws|e]; cbn [bind]; [|discriminate].
  apply header_scan_bounds. apply Forall_forall. intros o Ho.
  apply range_In in Ho. lia.
Qed.

Lemma detect_header_row_bounds_witness :
  1 <= 1 <= 3 /\ 1 < 1 + 3.
Proof.
  exact (detect_header_row_bounds (one_sheet sheet_c) "Sheet1"
           (region 1 3 1 3) (Some 1) eq_refl).
Defined.

(** X9: for a region of a single row inside the sheet the locator returns
    that row when all its cells are text, and "no header" otherwise. *)
Theorem detect_header_row_single_row (wb : Workbook) (sheet_name : string)
  (ws : Worksheet) (r : TableRegion) :
  wb_getitem wb sheet_name = Ok ws ->
  start_row r = end_row r -> 1 <= start_row r -> 1 <= start_col r ->
  detect_header_row wb sheet_name r
  = Ok (if forallb is_str (map (cell_value ws (start_row r))
                               (range (start_col r) (end_col r + 1)))
        then Some (start_row r) else None).
Proof.
  intros Hget Hrow Hr Hc. unfold detect_header_row. rewrite Hget.
  cbn [bind]. rewrite <- Hrow.
  replace (Z.min 3 (start_row r - start_row r + 1)) with (0 + 1) by lia.
  rewrite range_snoc, (range_nil 0 0) by lia. cbn [app header_scan].
  replace (start_row r + 0) with (start_row r) by lia.
  rewrite read_row_ok by assumption. cbn [bind].
  set (row := map (cell_value ws (start_row r)) _).
  rewrite <- Hrow. rewrite Z.ltb_irrefl. cbn [bind].
  replace (start_row r >? start_row r) with false by (symmetry; lia).
  destruct (forallb is_str row) eqn:Hstr.
  - assert (Hfull : forallb (fun v => negb (is_none v)) row = true).
    { apply forallb_forall. intros v Hv. apply is_str_not_none.
      rewrite forallb_forall in Hstr. now apply Hstr. }
    now rewrite Hfull.
  - now destruct (negb (forallb (fun v => negb (is_none v)) row)).
Qed.

Lemma detect_header_row_single_row_witness :
  detect_header_row (one_sheet sheet_c) "Sheet1" (region 1 1 1 3) = Ok (Some 1) /\
  detect_header_row (one_sheet sheet_c) "Sheet1" (region 2 2 1 3) = Ok None.
Proof.
  split.
  - exact (detect_header_row_single_row (one_sheet sheet_c) "Sheet1" sheet_c
             (region 1 1 1 3) eq_refl eq_refl ltac:(cbn; lia) ltac:(cbn; lia)).
  - exact (detect_header_row_single_row (one_sheet sheet_c) "Sheet1" sheet_c
             (region 2 2 1 3) eq_refl eq_refl ltac:(cbn; lia) ltac:(cbn; lia)).
Defined.

(** ** A sheet name the workbook does not have *)

Lemma wb_getitem_missing (wb : Workbook) (sheet_name : string) :
  (forall p, In p (wb_sheets wb) -> fst p <> sheet_name) ->
  wb_getitem wb sheet_name = Raise KeyError.
Proof.
  intros Hmiss. unfold wb_getitem.
  destruct (find _ (wb_sheets wb)) as [p|] eqn:E; [|reflexivity].
  apply find_some in E. destruct E as [Hin Heq].
  apply String.eqb_eq in Heq. now elim (Hmiss p Hin).
Qed.

(** X10: with a sheet name that no sheet of the workbook bears, the two
    detectors, the header row locator and the two key-value readers raise
    [KeyError], whatever their other arguments. *)
Theorem missing_sheet_raises (wb : Workbook) (sheet_name : string)
  (min_rows : Z) (r : TableRegion) (first last : option Z) :
  (forall p, In p (wb_sheets wb) -> fst p <> sheet_name) ->
  detect_key_value_tables wb sheet_name = Raise KeyError /\
  detect_tables wb sheet_name min_rows = Raise KeyError /\
  detect_header_row wb sheet_name r = Raise KeyError /\
  read_key_value_region wb sheet_name r = Raise KeyError /\
  read_key_value_table wb sheet_name first last = Raise KeyError.
Proof.
  intros Hmiss. apply wb_getitem_missing in Hmiss.
  unfold detect_key_value_tables, detect_tables, detect_header_row,
    read_key_value_region, read_key_value_table.
  rewrite Hmiss. cbn [bind]. repeat split.
Qed.

Lemma missing_sheet_raises_witness :
  detect_key_value_tables two_sheets "Outputs" = Raise KeyError /\
  detect_tables two_sheets "Outputs" 2 = Raise KeyError /\
  detect_header_row two_sheets "Outputs" (region 1 3 1 3) = Raise KeyError /\
  read_key_value_region two_sheets "Outputs" (region 1 3 1 3) = Raise KeyError /\
  read_key_value_table two_sheets "Outputs" None None = Raise KeyError.
Proof.
  apply (missing_sheet_raises two_sheets "Outputs" 2 (region 1 3 1 3) None None).
  intros p [<- | [<- | []]]; discriminate.
Defined.

(** ** What [read_table] does with the cells of the region *)

Lemma table_frame_keeps (data : list (list value)) (h a : bool) :
  table_frame data h a = frame data \/
  exists hdr rest, data = hdr :: rest /\ rest <> [] /\
                   table_frame data h a
                   = frame_with_columns rest (map LVal hdr).
Proof.
  destruct data as [|hdr rest]; [now left|].
  destruct rest as [|second rest].
  - left. cbn. now destruct a, h.
  - assert (Hsplit : exists hdr' rest',
               hdr :: second :: rest = hdr' :: rest' /\ rest' <> [] /\
               frame_with_columns (second :: rest) (map LVal hdr)
               = frame_with_columns rest' (map LVal hdr'))
      by (exists hdr, (second :: rest); repeat split; discriminate).
    unfold table_frame.
    destruct (a && _); [destruct (mostly_strings_then_numbers _ _)|
                        destruct (h && _)]; auto.
Qed.

(** X11: [read_table] keeps every cell of the region and their order: for a
    region that starts at row and column 1 or more it returns either all
    the rows of the region under positional columns, or the first row as
    the column names and the rows below it, at least one, as the data. With
    both flags off, and for a region of a single row, it is the former. *)
Theorem read_table_keeps_cells (wb : Workbook) (ws : Worksheet)
  (r : TableRegion) (has_header auto_detect_header : bool) :
  wb_active wb = Some ws -> 1 <= start_row r -> 1 <= start_col r ->
  exists df,
    read_table wb r has_header auto_detect_header = Ok df /\
    (df = frame (region_cells ws r) \/
     exists hdr rest, region_cells ws r = hdr :: rest /\ rest <> [] /\
                      df = frame_with_columns rest (map LVal hdr)) /\
    (has_header = false -> auto_detect_header = false ->
     df = frame (region_cells ws r)) /\
    (end_row r <= start_row r -> df = frame (region_cells ws r)).
Proof.
  intros Hact Hr Hc. rewrite (read_table_active wb ws) by exact Hact.
  rewrite extract_data_ok by assumption. cbn [bind].
  eexists. split; [reflexivity|]. split; [apply table_frame_keeps|]. split.
  - intros -> ->. now destruct (region_cells ws r).
  - intros Hrows. unfold region_cells.
    destruct (Z_lt_le_dec (end_row r) (start_row r)) as [Hlt|Hle].
    + now rewrite (range_nil (start_row r)) by lia.
    + rewrite (range_cons (start_row r)), (range_nil (start_row r + 1))
        by lia.
      cbn. now destruct auto_detect_header, has_header.
Qed.

Lemma read_table_keeps_cells_witness :
  exists df,
    read_table (one_sheet sheet_c) (region 2 3 1 3) true true = Ok df /\
    (df = frame (region_cells sheet_c (region 2 3 1 3)) \/
     exists hdr rest, region_cells sheet_c (region 2 3 1 3) = hdr :: rest /\
                      rest <> [] /\
                      df = frame_with_columns rest (map LVal hdr)).
Proof.
  destruct (read_table_keeps_cells (one_sheet sheet_c) sheet_c
              (region 2 3 1 3) true true eq_refl ltac:(cbn; lia)
              ltac:(cbn; lia)) as (df & Hdf & Hkeep & _).
  exists df. split; [exact Hdf | exact Hkeep].
Defined.

(** X12: with [auto_detect_header] on, [read_table] ignores [has_header]. *)
Theorem read_table_auto_ignores_has_header (wb : Workbook) (r : TableRegion) :
  read_table wb r true true = read_table wb r false true.
Proof.
  unfold read_table. destruct (mapM _ _) as [data|e]; [|reflexivity].
  cbn [bind]. f_equal. destruct data as [|first others]; [reflexivity|].
  unfold table_frame. cbn [andb].
  now destruct (1 <? Z.of_nat (List.length (first :: others))).
Qed.

Lemma mapM_raise_first {A B : Type} (f : A -> result B) (x : A)
  (l : list A) (e : exn) :
  f x = Raise e -> mapM f (x :: l) = Raise e.
Proof. intros H. cbn [mapM]. now rewrite H. Qed.

(** X13: the edges of [read_table]. A region whose last row is above its
    first row gives the empty frame, whatever the workbook. A region with
    at least one row and one column raises [ValueError] when it starts
    above row 1 or left of column 1, and [AttributeError] when the workbook
    has no active sheet. *)
Theorem read_table_edges (wb : Workbook) (r : TableRegion)
  (has_header auto_detect_header : bool) :
  (end_row r < start_row r ->
   read_table wb r has_header auto_detect_header = Ok empty_frame) /\
  (start_row r <= end_row r -> start_col r <= end_col r ->
   (exists ws, wb_active wb = Some ws) ->
   start_row r < 1 \/ start_col r < 1 ->
   read_table wb r has_header auto_detect_header = Raise ValueError) /\
  (start_row r <= end_row r -> start_col r <= end_col r ->
   wb_active wb = None ->
   read_table wb r has_header auto_detect_header = Raise AttributeError).
Proof.
  unfold read_table. split; [|split].
  - intros Hrows. now rewrite (range_nil (start_row r)) by lia.
  - intros Hrows Hcols [ws Hact] Hbad. rewrite Hact.
    rewrite (range_cons (start_row r)) by lia.
    erewrite mapM_raise_first; [reflexivity|].
    rewrite (range_cons (start_col r)) by lia.
    apply mapM_raise_first. unfold active_cell, ws_cell.
    destruct (start_row r <? 1) eqn:E1; [reflexivity|].
    destruct (start_col r <? 1) eqn:E2; [reflexivity | lia].
  - intros Hrows Hcols Hact. rewrite Hact.
    rewrite (range_cons (start_row r)) by lia.
    erewrite mapM_raise_first; [reflexivity|].
    rewrite (range_cons (start_col r)) by lia.
    now apply mapM_raise_first.
Qed.

Lemma read_table_edges_witness :
  read_table (one_sheet sheet_c) (region 3 2 1 3) true true = Ok empty_frame /\
  read_table (one_sheet sheet_c) (region 0 2 1 3) true true = Raise ValueError /\
  read_table {| wb_sheets := [("Sheet1", sheet_c)]; wb_active_index := 1 |}
             (region 1 2 1 3) true true = Raise AttributeError.
Proof.
  split; [|split].
  - apply (proj1 (read_table_edges (one_sheet sheet_c) (region 3 2 1 3)
                    true true)). cbn. lia.
  - apply (proj1 (proj2 (read_table_edges (one_sheet sheet_c)
                           (region 0 2 1 3) true true)));
      [cbn; lia | cbn; lia | now exists sheet_c | left; cbn; lia].
  - apply (proj2 (proj2 (read_table_edges
                           {| wb_sheets := [("Sheet1", sheet_c)];
                              wb_active_index := 1 |}
                           (region 1 2 1 3) true true)));
      [cbn; lia | cbn; lia | reflexivity].
Defined.

Lemma kv_regions_geometry_aux (ws : Worksheet) (r : TableRegion) :
  In r (kv_detect ws) ->
  start_col r = 1 /\ end_col r = 3 /\ 1 <= start_row r /\
  start_row r <= end_row r.
Proof.
  intros Hin. destruct (kv_detect_sound ws) as (Hsound & _ & _).
  rewrite Forall_forall in Hsound.
  destruct (Hsound r Hin) as (H1 & H2 & H3 & H4 & _). now repeat split.
Qed.

(** ** Reading the regions of the key-value detector *)

Lemma range_1_4 : range 1 (3 + 1) = [1; 2; 3].
Proof. reflexivity. Qed.

Lemma read_key_value_region_detected (wb : Workbook) (sheet_name : string)
  (ws : Worksheet) (r : TableRegion) :
  wb_getitem wb sheet_name = Ok ws -> In r (kv_detect ws) ->
  read_key_value_region wb sheet_name r = Ok (kv_region_frame ws r).
Proof.
  intros Hget Hin.
  destruct (kv_regions_geometry_aux ws r Hin) as (Hsc & Hec & Hr1 & Hse).
  unfold read_key_value_region. rewrite Hget. cbn [bind].
  rewrite extract_data_ok by lia. cbn [bind].
  unfold region_cells, kv_region_frame.
  rewrite Hsc, Hec, range_1_4. cbn [map].
  rewrite (range_cons (start_row r)) by lia. cbn [map key_value_frame].
  cbn. unfold set_first_index, frame_with_columns. cbn.
  now rewrite !map_map.
Qed.

(** X14: [read_key_value_region] on a region that the key-value detector
    found on the same sheet does not raise: it returns the frame with the
    columns "Value" and "Unit", indexed by the values of column A of the
    rows of the region, each row holding the values of columns B and C. *)
Theorem read_detected_key_value_region (wb : Workbook) (sheet_name : string)
  (ws : Worksheet) (l : list TableRegion) (r : TableRegion) :
  wb_getitem wb sheet_name = Ok ws ->
  detect_key_value_tables wb sheet_name = Ok l -> In r l ->
  read_key_value_region wb sheet_name r
  = Ok {| df_columns := [LVal (VStr "Value"); LVal (VStr "Unit")];
          df_index := map (fun i => LVal (cell_value ws i 1))
                          (range (start_row r) (end_row r + 1));
          df_values := map (fun i => [cell_value ws i 2; cell_value ws i 3])
                           (range (start_row r) (end_row r + 1)) |}.
Proof.
  intros Hget Hdet Hin. unfold detect_key_value_tables in Hdet.
  rewrite Hget in Hdet. cbn [bind] in Hdet. injection Hdet as <-.
  now apply read_key_value_region_detected.
Qed.

Lemma read_detected_key_value_region_witness :
  read_key_value_region (one_sheet sheet_a) "Sheet1"
    {| start_row := 2; end_row := 3; start_col := 1; end_col := 3;
       name := "Rates"; title_row := Some 1 |}
  = Ok {| df_columns := [LVal (VStr "Value"); LVal (VStr "Unit")];
          df_index := [LVal (VStr "Spot"); LVal (VStr "Vol")];
          df_values := [[VInt 50; VNone]; [VFloat "0.4"; VNone]] |}.
Proof.
  exact (read_detected_key_value_region (one_sheet sheet_a) "Sheet1" sheet_a
           (kv_detect sheet_a) _ eq_refl eq_refl (or_introl eq_refl)).
Defined.

(** ** The rows [read_key_value_table] keeps *)

Lemma combine_filter_snd {A B : Type} (p : B -> bool) (l2 : list B) :
  forall l1 : list A,
    List.length l1 = List.length l2 ->
    map snd (filter (fun ir => p (snd ir)) (combine l1 l2)) = filter p l2.
Proof.
  induction l2 as [|y t IH]; intros [|x l1] Hlen; try discriminate;
    [reflexivity|].
  cbn. destruct (p y); cbn; f_equal; apply IH; now injection Hlen.
Qed.

Lemma filter_filter_implied {A : Type} (p q : A -> bool) (l : list A) :
  (forall x, In x l -> p x = true -> q x = true) ->
  filter p (filter q l) = filter p l.
Proof.
  induction l as [|x t IH]; intros H; [reflexivity|]. cbn.
  assert (IH' : filter p (filter q t) = filter p t)
    by (apply IH; intros y Hy; apply H; now right).
  destruct (p x) eqn:Ep.
  - rewrite (H x (or_introl eq_refl) Ep). cbn. now rewrite Ep, IH'.
  - destruct (q x); cbn; [rewrite Ep|]; exact IH'.
Qed.

(** The row [i] over all columns of the sheet. *)
Lemma sheet_row_split (ws : Worksheet) (i : Z) :
  map (cell_value ws i) (range 1 (max_column ws + 1))
  = cell_value ws i 1 :: map (cell_value ws i) (range 2 (max_column ws + 1)).
Proof.
  rewrite (range_cons 1) by (unfold max_column; lia). reflexivity.
Qed.

(** X15: [read_key_value_table] over the rows [first..last] (by default the
    whole sheet), [first] being 1 or more, returns a frame with one row for
    each of these rows that has a value in column A, in their order: it is
    indexed by that value and holds the values of the columns from B to
    the last column of the sheet. Rows without a value in column A are
    dropped. *)
Theorem read_key_value_table_rows (wb : Workbook) (sheet_name : string)
  (ws : Worksheet) (first last : option Z) :
  wb_getitem wb sheet_name = Ok ws ->
  1 <= match first with Some i => i | None => 1 end ->
  exists df,
    read_key_value_table wb sheet_name first last = Ok df /\
    let rows :=
      filter (fun i => negb (is_none (cell_value ws i 1)))
             (range (match first with Some i => i | None => 1 end)
                    (match last with Some i => i | None => max_row ws end + 1))
    in
    df_index df = map (fun i => LVal (cell_value ws i 1)) rows /\
    df_values df
    = map (fun i => map (cell_value ws i) (range 2 (max_column ws + 1))) rows.
Proof.
  intros Hget Hfirst. unfold read_key_value_table. rewrite Hget. cbn [bind].
  set (lo := match first with Some i => i | None => 1 end) in *.
  set (hi := match last with Some i => i | None => max_row ws end).
  set (g := fun i => map (cell_value ws i) (range 1 (max_column ws + 1))).
  rewrite (mapM_ok _ g).
  2:{ intros i Hi. apply range_In in Hi. unfold g. apply mapM_ok.
      intros c Hc. apply range_In in Hc. apply ws_cell_ok; lia. }
  cbn [bind].
  set (any := existsb (fun v => negb (is_none v))).
  set (p := fun row : list value => negb (is_none (hd VNone row))).
  set (rows := filter (fun i => negb (is_none (cell_value ws i 1)))
                      (range lo (hi + 1))).
  assert (Hkept : filter p (filter any (map g (range lo (hi + 1))))
                  = map g rows).
  { rewrite filter_filter_implied.
    - rewrite filter_map_swap. unfold rows. f_equal.
      apply filter_ext. intros i. unfold p, g. now rewrite sheet_row_split.
    - intros row Hrow Hp. apply in_map_iff in Hrow.
      destruct Hrow as (i & <- & _). unfold g in *.
      rewrite sheet_row_split in *. unfold any, p in *. cbn in *.
      now rewrite Hp. }
  assert (Hidx : map (fun row => LVal (hd VNone row)) (map g rows)
                 = map (fun i => LVal (cell_value ws i 1)) rows).
  { rewrite map_map. apply map_ext. intros i. unfold g.
    now rewrite sheet_row_split. }
  assert (Hval : map (@tl value) (map g rows)
                 = map (fun i => map (cell_value ws i)
                                     (range 2 (max_column ws + 1))) rows).
  { rewrite map_map. apply map_ext. intros i. unfold g.
    now rewrite sheet_row_split. }
  destruct (filter any (map g (range lo (hi + 1)))) as [|d0 data] eqn:Edata.
  - exists empty_frame. split; [reflexivity|]. cbn in Hkept.
    destruct rows; [now split | discriminate Hkept].
  - set (df := keep_labelled (frame (d0 :: data))).
    assert (Hdfv : df_values df = map g rows).
    { unfold df, keep_labelled, frame. cbn [df_values df_index].
      rewrite <- Hkept. apply (combine_filter_snd p).
      unfold positions. now rewrite length_map, length_seq. }
    eexists. split; [reflexivity|]. cbv zeta.
    destruct (df_empty df) eqn:Eempty; cbn [negb].
    + (* nothing kept *)
      assert (Hrows : rows = []).
      { unfold df_empty in Eempty.
        assert (Hcols : df_columns df <> []).
        { unfold df, keep_labelled, frame, positions, width.
          cbn [df_columns].
          assert (Hd0 : In d0 (filter any (map g (range lo (hi + 1)))))
            by (rewrite Edata; now left).
          apply filter_In in Hd0. destruct Hd0 as [Hd0 _].
          apply in_map_iff in Hd0. destruct Hd0 as (i & <- & _).
          unfold g. rewrite sheet_row_split. discriminate. }
        destruct (df_columns df); [congruence|].
        destruct (df_index df) eqn:Ei; [|discriminate Eempty].
        unfold df, keep_labelled in Ei, Hdfv. cbn [df_index df_values] in *.
        apply map_eq_nil in Ei. rewrite Ei in Hdfv. cbn in Hdfv.
        symmetry in Hdfv. now apply map_eq_nil in Hdfv. }
      rewrite Hrows in *. cbn [map] in *.
      split; [|exact Hdfv].
      unfold df, keep_labelled in *. cbn [df_index df_values] in *.
      apply map_eq_nil in Hdfv. now rewrite Hdfv.
    + unfold set_first_index. cbn [df_index df_values].
      rewrite Hdfv. now split.
Qed.

Lemma read_key_value_table_rows_witness :
  exists df,
    read_key_value_table (one_sheet sheet_gap) "Sheet1" None None = Ok df /\
    df_index df = [LVal (VStr "Spot"); LVal (VStr "Vol")] /\
    df_values df = [[VInt 50; VNone]; [VFloat "0.4"; VNone]].
Proof.
  exact (read_key_value_table_rows (one_sheet sheet_gap) "Sheet1" sheet_gap
           None None eq_refl ltac:(lia)).
Defined.

(** ** Style presets by name *)

Lemma lower_ascii_idempotent (c : ascii) :
  lower_ascii (lower_ascii c) = lower_ascii c.
Proof. destruct c as [[] [] [] [] [] [] [] []]; reflexivity. Qed.

Lemma lower_idempotent (s : string) : lower (lower s) = lower s.
Proof.
  induction s as [|c s IH]; [reflexivity|]. cbn [lower].
  now rewrite lower_ascii_idempotent, IH.
Qed.

Lemma lookup_Some {A : Type} (key : string) (items : list (string * A))
  (v : A) :
  lookup key items = Some v -> In (key, v) items.
Proof.
  induction items as [|[k x] rest IH]; cbn [lookup]; [discriminate|].
  destruct (k =? key)%string eqn:E.
  - apply String.eqb_eq in E. intros H. injection H as <-. subst k. now left.
  - intros H. right. now apply IH.
Qed.

Lemma lookup_None {A : Type} (key : string) (items : list (string * A)) :
  lookup key items = None <-> ~ In key (map fst items).
Proof.
  induction items as [|[k x] rest IH]; cbn [lookup map In fst]; [tauto|].
  destruct (k =? key)%string eqn:E.
  - apply String.eqb_eq in E. split; [discriminate | intros H; elim H; now left].
  - apply String.eqb_neq in E. rewrite IH. tauto.
Qed.

(** X16: [StylePreset.get] looks the name up without regard to the case of
    its ASCII letters: a name whose lower-case form is a key of the preset
    map gives the preset under that key, any other name raises
    [ValueError]. *)
Theorem StylePreset_get_by_lower_name (preset_name : string) :
  StylePreset_get preset_name = StylePreset_get (lower preset_name) /\
  (In (lower preset_name) (map fst preset_map) ->
   exists style, StylePreset_get preset_name = Ok style /\
                 In (lower preset_name, style) preset_map) /\
  (~ In (lower preset_name) (map fst preset_map) ->
   StylePreset_get preset_name = Raise ValueError).
Proof.
  unfold StylePreset_get. rewrite lower_idempotent.
  split; [reflexivity|]. split.
  - intros Hin.
    destruct (lookup (lower preset_name) preset_map) as [style|] eqn:E.
    + exists style. split; [reflexivity | now apply lookup_Some].
    + apply lookup_None in E. contradiction.
  - intros Hnot. apply lookup_None in Hnot. now rewrite Hnot.
Qed.

Lemma StylePreset_get_by_lower_name_witness :
  (exists style, StylePreset_get "Outputs" = Ok style /\
                 In ("outputs", style) preset_map) /\
  StylePreset_get "fancy" = Raise ValueError.
Proof.
  split.
  - apply (proj1 (proj2 (StylePreset_get_by_lower_name "Outputs"))).
    cbn. tauto.
  - apply (proj2 (proj2 (StylePreset_get_by_lower_name "fancy"))).
    cbn. intros H.
    repeat (destruct H as [H|H]; [discriminate H|]). exact H.
Defined.

(** ** [read_all_tables] *)

Lemma detect_tables_ws_origin (ws : Worksheet) (min_rows : Z)
  (r : TableRegion) :
  In r (detect_tables_ws ws min_rows) -> 1 <= start_row r /\ 1 <= start_col r.
Proof.
  intros Hin. split.
  - destruct (detect_tables_ws_sound ws min_rows) as [Hbands _].
    rewrite Forall_forall in Hbands. now destruct (Hbands r Hin).
  - destruct (sort_cells (data_cells ws)) as [|[r0 c0] rest] eqn:Hsort.
    + unfold detect_tables_ws in Hin. now rewrite Hsort in Hin.
    + pose proof (detect_tables_ws_cols ws min_rows r0 c0 rest Hsort) as Hall.
      rewrite Forall_forall in Hall. destruct (Hall r Hin) as [-> _].
      unfold min_col.
      destruct (fold_min_spec (map snd rest) c0) as [Hmin _].
      change (c0 :: map snd rest) with (map snd ((r0, c0) :: rest)) in Hmin.
      apply (sorted_cells_populated ws _ _ Hsort) in Hmin.
      destruct Hmin as [i Hpop]. apply populated_iff in Hpop. lia.
Qed.

(** X17: with the name of a sheet of the workbook and a known style,
    [read_all_tables] in key-value mode does not raise: it returns one pair
    for each region of the key-value detector, in their order, made of the
    name of the region and of the table of its key-value frame in that
    style. *)
Theorem read_all_tables_key_value (wb : Workbook) (sheet_name style : string)
  (ws : Worksheet) (preset : TableStyle) :
  wb_getitem wb sheet_name = Ok ws -> StylePreset_get style = Ok preset ->
  read_all_tables wb sheet_name style true
  = Ok (map (fun r => (name r, {| ft_df := kv_region_frame ws r;
                                   ft_style_preset := preset |}))
            (kv_detect ws)).
Proof.
  intros Hget Hstyle. unfold read_all_tables, detect_key_value_tables.
  rewrite Hget. cbn [bind]. apply mapM_ok. intros r Hin.
  rewrite (read_key_value_region_detected wb sheet_name ws r Hget Hin).
  cbn [bind]. unfold financial_table. now rewrite Hstyle.
Qed.

Lemma read_all_tables_key_value_witness :
  read_all_tables (one_sheet sheet_a) "Sheet1" "Assumptions" true
  = Ok [ ("Rates",
          {| ft_df := {| df_columns := [LVal (VStr "Value"); LVal (VStr "Unit")];
                         df_index := [LVal (VStr "Spot"); LVal (VStr "Vol")];
                         df_values := [[VInt 50; VNone]; [VFloat "0.4"; VNone]] |};
             ft_style_preset := ASSUMPTIONS |});
         ("Greeks",
          {| ft_df := {| df_columns := [LVal (VStr "Value"); LVal (VStr "Unit")];
                         df_index := [LVal (VStr "Delta")];
                         df_values := [[VFloat "0.68"; VNone]] |};
             ft_style_preset := ASSUMPTIONS |}) ].
Proof.
  exact (read_all_tables_key_value (one_sheet sheet_a) "Sheet1" "Assumptions"
           sheet_a ASSUMPTIONS eq_refl eq_refl).
Defined.

(** X18: in generic mode [read_all_tables] detects the regions on the named
    sheet with at least two rows each and reads every one of them from the
    active sheet: with a known style and an active sheet it returns, for
    each region found on the named sheet, its name and the table of the
    cells that the active sheet holds at its coordinates. *)
Theorem read_all_tables_generic (wb : Workbook) (sheet_name style : string)
  (ws active : Worksheet) (preset : TableStyle) :
  wb_getitem wb sheet_name = Ok ws -> wb_active wb = Some active ->
  StylePreset_get style = Ok preset ->
  read_all_tables wb sheet_name style false
  = Ok (map (fun r => (name r,
                       {| ft_df := table_frame (region_cells active r)
                                               true true;
                          ft_style_preset := preset |}))
            (detect_tables_ws ws 2)).
Proof.
  intros Hget Hact Hstyle. unfold read_all_tables, detect_tables.
  rewrite Hget. cbn [bind]. apply mapM_ok. intros r Hin.
  destruct (detect_tables_ws_origin ws 2 r Hin) as [Hr Hc].
  rewrite (read_table_active wb active) by exact Hact.
  rewrite extract_data_ok by assumption. cbn [bind].
  unfold financial_table. now rewrite Hstyle.
Qed.

Lemma read_all_tables_generic_witness :
  read_all_tables two_sheets "Grid" "standard" false
  = Ok [ ("Strike",
          {| ft_df := frame [[VStr "Rates"; VNone; VNone];
                             [VStr "Spot"; VInt 50; VNone];
                             [VStr "Vol"; VFloat "0.4"; VNone]];
             ft_style_preset := STANDARD |}) ].
Proof.
  exact (read_all_tables_generic two_sheets "Grid" "standard" sheet_c sheet_a
           STANDARD eq_refl eq_refl eq_refl).
Defined.

(** X19: with a style that [StylePreset.get] does not know,
    [read_all_tables] raises [ValueError] when the detector finds a region
    on the sheet, and returns the empty list when it finds none: the style
    is looked up once per region. *)
Theorem read_all_tables_unknown_style (wb : Workbook)
  (sheet_name style : string) (ws active : Worksheet) (key_value : bool) :
  wb_getitem wb sheet_name = Ok ws -> wb_active wb = Some active ->
  StylePreset_get style = Raise ValueError ->
  read_all_tables wb sheet_name style key_value
  = match (if key_value then kv_detect ws else detect_tables_ws ws 2) with
    | [] => Ok []
    | _ :: _ => Raise ValueError
    end.
Proof.
  intros Hget Hact Hstyle.
  unfold read_all_tables, detect_key_value_tables, detect_tables.
  rewrite Hget. destruct key_value; cbn [bind].
  - destruct (kv_detect ws) as [|r l] eqn:E; [reflexivity|].
    apply mapM_raise_first.
    rewrite (read_key_value_region_detected wb sheet_name ws r Hget)
      by (rewrite E; now left).
    cbn [bind]. unfold financial_table. now rewrite Hstyle.
  - destruct (detect_tables_ws ws 2) as [|r l] eqn:E; [reflexivity|].
    apply mapM_raise_first.
    destruct (detect_tables_ws_origin ws 2 r) as [Hr Hc];
      [rewrite E; now left|].
    rewrite (read_table_active wb active) by exact Hact.
    rewrite extract_data_ok by assumption. cbn [bind].
    unfold financial_table. now rewrite Hstyle.
Qed.

Lemma read_all_tables_unknown_style_witness :
  read_all_tables (one_sheet sheet_a) "Sheet1" "fancy" true = Raise ValueError /\
  read_all_tables (one_sheet sheet_bands) "Sheet1" "fancy" true = Ok [].
Proof.
  split.
  - exact (read_all_tables_unknown_style (one_sheet sheet_a) "Sheet1" "fancy"
             sheet_a sheet_a true eq_refl eq_refl eq_refl).
  - exact (read_all_tables_unknown_style (one_sheet sheet_bands) "Sheet1"
             "fancy" sheet_bands sheet_bands true eq_refl eq_refl eq_refl).
Defined.

(** ** [list_tables]: one entry for each sheet *)

Lemma lookup_dict_set_same {A : Type} (key : string) (v : A)
  (items : list (string * A)) :
  lookup key (dict_set key v items) = Some v.
Proof.
  induction items as [|[k x] rest IH]; cbn [dict_set lookup].
  - now rewrite String.eqb_refl.
  - destruct (k =? key)%string eqn:E; cbn [lookup]; now rewrite E.
Qed.

Lemma lookup_dict_set_other {A : Type} (key key' : string) (v : A)
  (items : list (string * A)) :
  key <> key' ->
  lookup key' (dict_set key v items) = lookup key' items.
Proof.
  intros Hne. induction items as [|[k x] rest IH]; cbn [dict_set lookup].
  - apply String.eqb_neq in Hne. now rewrite Hne.
  - destruct (k =? key)%string eqn:E; cbn [lookup].
    + apply String.eqb_eq in E. subst k.
      apply String.eqb_neq in Hne. now rewrite Hne.
    + now rewrite IH.
Qed.

Lemma wb_getitem_sheet_names (wb : Workbook) (sheet_name : string) :
  In sheet_name (sheet_names wb) <->
  exists ws, wb_getitem wb sheet_name = Ok ws.
Proof.
  unfold sheet_names, wb_getitem. split.
  - intros Hin. apply in_map_iff in Hin. destruct Hin as ([k ws] & <- & Hin).
    destruct (find _ (wb_sheets wb)) as [p|] eqn:E; [now exists (snd p)|].
    apply (find_none _ _ E) in Hin. cbn in Hin.
    now rewrite String.eqb_refl in Hin.
  - intros [ws H].
    destruct (find _ (wb_sheets wb)) as [p|] eqn:E; [|discriminate H].
    apply find_some in E. destruct E as [Hin Heq].
    apply String.eqb_eq in Heq. subst sheet_name. now apply in_map.
Qed.

Lemma regions_of_sheet_ok (wb : Workbook) (sheet_name : string)
  (ws : Worksheet) :
  wb_getitem wb sheet_name = Ok ws ->
  regions_of_sheet wb sheet_name = Ok (regions_of ws).
Proof.
  intros Hget. unfold regions_of_sheet, detect_key_value_tables,
    detect_tables, regions_of.
  rewrite Hget. cbn [bind]. now destruct (kv_detect ws).
Qed.

Lemma regions_of_origin (ws : Worksheet) (r : TableRegion) :
  In r (regions_of ws) -> 1 <= start_row r /\ 1 <= start_col r.
Proof.
  unfold regions_of. destruct (kv_detect ws) as [|r0 l] eqn:E.
  - apply detect_tables_ws_origin.
  - rewrite <- E. intros Hin.
    destruct (kv_regions_geometry_aux ws r Hin) as (Hc & _ & Hr & _). lia.
Qed.

Lemma tables_info_ok (wb : Workbook) (sheet_name : string) (ws : Worksheet)
  (glimpse : bool) (max_rows : Z) :
  wb_getitem wb sheet_name = Ok ws ->
  mapM (table_info_of wb sheet_name glimpse max_rows) (regions_of ws)
  = Ok (sheet_infos ws glimpse max_rows).
Proof.
  intros Hget. unfold sheet_infos. apply mapM_ok. intros r Hin.
  destruct (regions_of_origin ws r Hin) as [Hr Hc].
  unfold table_info_of. destruct glimpse; [|reflexivity].
  unfold read_key_value_region. rewrite Hget. cbn [bind].
  now rewrite extract_data_ok by assumption.
Qed.

Lemma list_tables_loop_entries (wb : Workbook) (glimpse : bool)
  (max_rows : Z) (names : list string) :
  forall seen acc,
    (forall n, In n names -> In n (sheet_names wb)) ->
    (forall n, lookup n acc
               = if in_dec string_dec n seen
                 then expected_entry wb glimpse max_rows n else None) ->
    exists d,
      list_tables_loop wb glimpse max_rows names acc = Ok d /\
      forall n, lookup n d
                = if in_dec string_dec n (seen ++ names)
                  then expected_entry wb glimpse max_rows n else None.
Proof.
  induction names as [|sheet_name rest IH]; intros seen acc Hnames Hacc;
    cbn [list_tables_loop].
  - exists acc. split; [reflexivity|]. now rewrite app_nil_r.
  - destruct (proj1 (wb_getitem_sheet_names wb sheet_name)
                    (Hnames _ (or_introl eq_refl))) as [ws Hget].
    rewrite (regions_of_sheet_ok wb sheet_name ws Hget). cbn [bind].
    rewrite (tables_info_ok wb sheet_name ws glimpse max_rows Hget).
    cbn [bind].
    destruct (IH (seen ++ [sheet_name])
                 (dict_set sheet_name (sheet_infos ws glimpse max_rows) acc))
      as (d & Hd & Hlookup).
    + intros n Hn. apply Hnames. now right.
    + intros n. destruct (string_dec sheet_name n) as [<-|Hne].
      * rewrite lookup_dict_set_same.
        destruct (in_dec string_dec sheet_name (seen ++ [sheet_name]))
          as [_|Hnot]; [|elim Hnot; apply in_or_app; right; now left].
        unfold expected_entry. now rewrite Hget.
      * rewrite lookup_dict_set_other by exact Hne. rewrite Hacc.
        destruct (in_dec string_dec n seen) as [Hin|Hnot];
          destruct (in_dec string_dec n (seen ++ [sheet_name]))
            as [Hin'|Hnot']; try reflexivity.
        -- elim Hnot'. apply in_or_app. now left.
        -- apply in_app_or in Hin'. destruct Hin' as [Hin'|[Heq|[]]];
             [contradiction | congruence].
    + exists d. split; [exact Hd|]. intros n. rewrite Hlookup.
      now rewrite <- app_assoc.
Qed.

(** X20: [list_tables] does not raise, with or without [glimpse]. The dict
    it returns has an entry for every sheet of the workbook and for no other
    name; the entry of a sheet lists, in their order, the regions of the
    key-value detector on that sheet or, when it finds none, those of the
    generic detector with at least two rows, each with its name, its rows
    and columns as text and, with [glimpse], the columns and the first
    [max_rows] rows of its key-value frame. *)
Theorem list_tables_entries (wb : Workbook) (glimpse : bool) (max_rows : Z) :
  exists d,
    list_tables wb glimpse max_rows = Ok d /\
    forall sheet_name,
      lookup sheet_name d
      = match wb_getitem wb sheet_name with
        | Ok ws => Some (sheet_infos ws glimpse max_rows)
        | Raise _ => None
        end.
Proof.
  destruct (list_tables_loop_entries wb glimpse max_rows (sheet_names wb)
              [] []) as (d & Hd & Hlookup).
  - auto.
  - intros n. cbn. now destruct (in_dec string_dec n []).
  - exists d. split; [exact Hd|]. intros n. rewrite Hlookup. cbn [app].
    destruct (in_dec string_dec n (sheet_names wb)) as [Hin|Hnot];
      [reflexivity|].
    destruct (wb_getitem wb n) as [ws|e] eqn:E; [|reflexivity].
    elim Hnot. apply wb_getitem_sheet_names. now exists ws.
Qed.

(** ** The sort in [detect_tables] *)

Lemma StronglySorted_app {A : Type} (R : A -> A -> Prop) (l1 l2 : list A) :
  StronglySorted R l1 -> StronglySorted R l2 ->
  (forall x y, In x l1 -> In y l2 -> R x y) ->
  StronglySorted R (l1 ++ l2).
Proof.
  induction 1 as [|a l Hl IH Ha]; intros H2 Hcross; cbn [app]; [exact H2|].
  constructor.
  - apply IH; [exact H2|]. intros x y Hx Hy. apply Hcross; [now right | exact Hy].
  - apply Forall_app. split; [exact Ha|].
    apply Forall_forall. intros y Hy. apply Hcross; [now left | exact Hy].
Qed.

Lemma row_cells_sorted (i : Z) (row : list value) :
  StronglySorted pair_lt (row_cells i row).
Proof.
  unfold row_cells. generalize 1 as s.
  induction row as [|v t IH]; intros s; cbn [enumerate flat_map];
    [constructor|].
  apply StronglySorted_app; [| apply IH |].
  - cbn [snd fst]. destruct (is_none v); repeat constructor.
  - intros x [i' c] Hx Hy. cbn [snd fst] in Hx.
    destruct (is_none v); [destruct Hx|]. destruct Hx as [<- | []].
    apply in_flat_map in Hy. destruct Hy as ([c' v'] & Hin & Hcell).
    apply enumerate_In in Hin. cbn [fst snd] in Hcell.
    destruct (is_none v'); [destruct Hcell|].
    destruct Hcell as [E | []]. injection E as <- <-.
    right. cbn. lia.
Qed.

Lemma data_cells_sorted (ws : Worksheet) :
  StronglySorted pair_lt (data_cells ws).
Proof.
  unfold data_cells. generalize 1 as s.
  induction ws as [|row t IH]; intros s; cbn [enumerate flat_map];
    [constructor|].
  apply StronglySorted_app; [apply row_cells_sorted | apply IH |].
  cbn [fst snd]. intros [i c] [i' c'] Hx Hy.
  apply row_cells_In in Hx. destruct Hx as (-> & _).
  apply in_flat_map in Hy. destruct Hy as ([j row'] & Hin & Hcell).
  apply enumerate_In in Hin. cbn [fst snd] in Hcell.
  apply row_cells_In in Hcell. destruct Hcell as (-> & _).
  left. cbn. lia.
Qed.

Lemma sort_cells_sorted_id (l : list (Z * Z)) :
  StronglySorted pair_lt l -> sort_cells l = l.
Proof.
  induction 1 as [|p t Ht IH Hp]; [reflexivity|].
  cbn [sort_cells]. rewrite IH.
  destruct t as [|q t']; [reflexivity|]. cbn [insert_sorted].
  inversion Hp as [|x xs Hpq _]; subst.
  assert (E : pair_leb q p = false)
    by (unfold pair_lt in Hpq; unfold pair_leb; lia).
  now rewrite E.
Qed.

(** X21: the cells that [detect_tables] collects row by row and column by
    column are already in the order of the sort: sorting them changes
    nothing. *)
Theorem data_cells_sort_unchanged (ws : Worksheet) :
  sort_cells (data_cells ws) = data_cells ws.
Proof. apply sort_cells_sorted_id, data_cells_sorted. Qed.

(** ** Text replacement and the escaping of LaTeX *)

Lemma append_nil_r (s : string) : String.append s "" = s.
Proof. induction s as [|c s IH]; cbn; [reflexivity | now rewrite IH]. Qed.

Lemma append_assoc (a b c : string) :
  String.append (String.append a b) c = String.append a (String.append b c).
Proof. induction a as [|x a IH]; cbn; [reflexivity | now rewrite IH]. Qed.

Lemma length_append (a b : string) :
  String.length (String.append a b)
  = (String.length a + String.length b)%nat.
Proof. induction a as [|x a IH]; cbn; [reflexivity | now rewrite IH]. Qed.

Lemma subst_app (f : ascii -> string) (a b : string) :
  subst f (String.append a b) = String.append (subst f a) (subst f b).
Proof.
  induction a as [|x a IH]; cbn; [reflexivity|].
  now rewrite IH, append_assoc.
Qed.

Lemma subst_subst (f g : ascii -> string) (s : string) :
  subst g (subst f s) = subst (fun c => subst g (f c)) s.
Proof.
  induction s as [|x s IH]; cbn; [reflexivity|].
  now rewrite subst_app, IH.
Qed.

Lemma subst_ext (f g : ascii -> string) (s : string) :
  (forall c, f c = g c) -> subst f s = subst g s.
Proof.
  intros H. induction s as [|x s IH]; cbn; [reflexivity|].
  now rewrite H, IH.
Qed.

(** Replacing one character is a substitution, character by character. *)
Lemma replace_single (c : ascii) (new s : string) :
  replace (String c EmptyString) new s
  = subst (fun x => if (x =? c)%char then new else String x EmptyString) s.
Proof.
  unfold replace. induction s as [|x s IH]; [reflexivity|].
  cbn [replace_skip subst prefix String.length Nat.sub].
  destruct (ascii_dec c x) as [<-|Hne].
  - rewrite Ascii.eqb_refl. destruct s; cbn [prefix]; now rewrite IH.
  - assert (E : (x =? c)%char = false)
      by (apply Ascii.eqb_neq; congruence).
    rewrite E, IH. reflexivity.
Qed.

Lemma escape_latex_char_steps (c : ascii) :
  subst (fun x => if (x =? "&")%char then "\&" else String x EmptyString)
    (subst (fun x => if (x =? "%")%char then "\%" else String x EmptyString)
       (if (c =? "_")%char then "\_" else String c EmptyString))
  = escape_latex_char c.
Proof. destruct c as [[] [] [] [] [] [] [] []]; reflexivity. Qed.

Lemma escape_latex_subst (s : string) :
  escape_latex s = subst escape_latex_char s.
Proof.
  unfold escape_latex. rewrite !replace_single.
  rewrite (subst_subst _ _ s), subst_subst.
  apply subst_ext, escape_latex_char_steps.
Qed.

Lemma escape_latex_length (s : string) :
  String.length (escape_latex s)
  = (String.length s + count_chars latex_special s)%nat.
Proof.
  rewrite escape_latex_subst. induction s as [|c s IH]; [reflexivity|].
  cbn [subst count_chars String.length]. rewrite length_append, IH.
  unfold escape_latex_char. destruct (latex_special c); cbn; lia.
Qed.

Lemma escape_latex_count (s : string) :
  count_chars latex_special (escape_latex s) = count_chars latex_special s.
Proof.
  rewrite escape_latex_subst. induction s as [|c s IH]; [reflexivity|].
  cbn [subst count_chars]. unfold escape_latex_char at 1.
  destruct (latex_special c) eqn:E; cbn [String.append count_chars];
    rewrite IH, ?E; reflexivity.
Qed.

Lemma escape_latex_plain (s : string) :
  count_chars latex_special s = 0%nat -> escape_latex s = s.
Proof.
  rewrite escape_latex_subst. induction s as [|c s IH]; [reflexivity|].
  cbn [count_chars subst].
  destruct (latex_special c) eqn:E; [discriminate|]. intros H.
  unfold escape_latex_char at 1. rewrite E. cbn [String.append].
  now rewrite IH.
Qed.

(** X22: the three replacements of the LaTeX escaping act as one pass over
    the text: each "_", "%" and "&" gets one backslash in front of it and
    every other character, a backslash included, is kept as it is; the
    text grows by the number of these three characters. *)
Theorem escape_latex_one_pass (s : string) :
  escape_latex s = subst escape_latex_char s /\
  String.length (escape_latex s)
  = (String.length s + count_chars latex_special s)%nat.
Proof. split; [apply escape_latex_subst | apply escape_latex_length]. Qed.

(** X23: escaping is not idempotent: escaping an escaped text gives the
    same text only when the text has no "_", "%" or "&" at all; otherwise
    every one of them is escaped again. *)
Theorem escape_latex_twice (s : string) :
  escape_latex (escape_latex s) = escape_latex s <->
  count_chars latex_special s = 0%nat.
Proof.
  split.
  - intros H. apply (f_equal String.length) in H.
    rewrite !escape_latex_length, escape_latex_count in H. lia.
  - intros H. now rewrite !(escape_latex_plain s H).
Qed.

(** ** Contents without the pattern, and with it at the head *)

Lemma prefix_split (old s : string) :
  prefix old s = true -> exists post, s = String.append old post.
Proof.
  revert s. induction old as [|c old IH]; intros s H.
  - now exists s.
  - destruct s as [|x s]; [discriminate|]. cbn [prefix] in H.
    destruct (ascii_dec c x) as [<-|]; [|discriminate].
    destruct (IH s H) as [post ->]. now exists post.
Qed.

Lemma prefix_append (old rest : string) :
  prefix old (String.append old rest) = true.
Proof.
  induction old as [|c old IH]; cbn [String.append prefix];
    [now destruct rest|].
  now destruct (ascii_dec c c).
Qed.

Lemma replace_skip_passes (old new rest x : string) :
  replace_skip old new (String.append x rest) (String.length x)
  = replace_skip old new rest 0.
Proof. induction x as [|c x IH]; cbn; [reflexivity | exact IH]. Qed.

Lemma replace_absent (old new s : string) :
  ~ occurs old s -> replace old new s = s.
Proof.
  intros Habs. unfold replace. destruct old as [|c old'].
  - elim Habs. now exists "", s.
  - induction s as [|x s IH]; [reflexivity|]. cbn [replace_skip].
    destruct (prefix (String c old') (String x s)) eqn:E.
    + apply prefix_split in E. destruct E as [post E].
      elim Habs. exists "", post. exact E.
    + f_equal. apply IH. intros (pre & post & ->).
      apply Habs. now exists (String x pre), post.
Qed.

Lemma replace_head (old new rest : string) :
  old <> "" ->
  replace old new (String.append old rest)
  = String.append new (replace old new rest).
Proof.
  intros Hne. unfold replace. destruct old as [|c old']; [congruence|].
  change (String.append (String c old') rest)
    with (String c (String.append old' rest)) at 1.
  cbn [replace_skip].
  change (String c (String.append old' rest))
    with (String.append (String c old') rest).
  rewrite prefix_append. cbn [String.length Nat.sub].
  now rewrite Nat.sub_0_r, replace_skip_passes.
Qed.

Lemma occurs_longer (p x s : string) :
  occurs (String.append p x) s -> occurs p s.
Proof.
  intros (pre & post & ->). exists pre, (String.append x post).
  now rewrite append_assoc.
Qed.

(** X24: [fix_latex_captions] leaves a content without any empty listing
    caption, that is without "\caption{\label{", as it is, whatever the
    captions; with a single caption, a content that starts with the empty
    caption of its label starts with the caption filled with the escaped
    text instead, and the rest of the content goes through the same
    replacement. The number returned is the number of captions given,
    changed or not. *)
Theorem fix_latex_captions_content (content : string)
  (captions : list (string * string)) (label text rest : string) :
  snd (fix_latex_captions content captions) = List.length captions /\
  (~ occurs "\caption{\label{" content ->
   fst (fix_latex_captions content captions) = content) /\
  fst (fix_latex_captions
         (String.append
            (String.append "\caption{\label{" (String.append label "}}"))
            rest)
         [(label, text)])
  = String.append
      (String.append "\caption{"
         (String.append (escape_latex text)
            (String.append "\label{" (String.append label "}}"))))
      (replace (String.append "\caption{\label{" (String.append label "}}"))
         (String.append "\caption{"
            (String.append (escape_latex text)
               (String.append "\label{" (String.append label "}}"))))
         rest).
Proof.
  split; [reflexivity|]. split.
  - intros Habs. unfold fix_latex_captions. cbn [fst].
    induction captions as [|[l t] caps IH]; [reflexivity|].
    cbn [fold_left fst snd]. rewrite replace_absent; [exact IH|].
    intros Hocc. apply Habs. now apply occurs_longer in Hocc.
  - unfold fix_latex_captions. cbn [fst snd fold_left].
    apply replace_head. discriminate.
Qed.

Lemma fix_latex_captions_content_witness :
  fst (fix_latex_captions "\section{Intro}" [("lst-a", "50% of A_B")])
  = "\section{Intro}".
Proof.
  apply (proj1 (proj2 (fix_latex_captions_content "\section{Intro}"
                         [("lst-a", "50% of A_B")] "" "" ""))).
  intros (pre & post & H).
  repeat (destruct pre as [|? pre]; [discriminate H|];
          injection H as _ H).
  now destruct pre.
Defined.

(** X25: [apply_to_preamble] returns a template without "{{" as it is,
    whatever the configuration; with a single entry, a template that
    starts with the placeholder of its key starts with its value
    instead. *)
Theorem apply_to_preamble_template (config : list (string * string))
  (template key value rest : string) :
  (~ occurs "{{" template -> apply_to_preamble config template = template) /\
  apply_to_preamble [(key, value)]
    (String.append (String.append "{{" (String.append key "}}")) rest)
  = String.append value
      (replace (String.append "{{" (String.append key "}}")) value rest).
Proof.
  split.
  - intros Habs. unfold apply_to_preamble.
    induction config as [|[k v] cfg IH]; [reflexivity|].
    cbn [fold_left fst snd]. rewrite replace_absent; [exact IH|].
    intros Hocc. apply Habs. now apply occurs_longer in Hocc.
  - unfold apply_to_preamble. cbn [fold_left fst snd].
    apply replace_head. discriminate.
Qed.

Lemma apply_to_preamble_template_witness :
  apply_to_preamble [("MAIN_FONT", "Palatino")] "\usepackage{fontspec}"
  = "\usepackage{fontspec}".
Proof.
  apply (proj1 (apply_to_preamble_template [("MAIN_FONT", "Palatino")]
                  "\usepackage{fontspec}" "" "" "")).
  intros (pre & post & H).
  repeat (destruct pre as [|? pre]; [discriminate H|];
          injection H as _ H).
  now destruct pre.
Defined.

(** ** The font configuration *)

Lemma config_lines_app (lines : list string) (line : string) :
  load_font_config (Some (lines ++ [line]))
  = config_line (load_font_config (Some lines)) line.
Proof. unfold load_font_config. now rewrite fold_left_app. Qed.

(** X26: in [load_font_config] the last line that defines a key decides its
    value: after one more line, a key that the line defines has the value
    of that line, and every other key, as every key after a blank line, a
    comment or a line without "=", keeps the value it had. *)
Theorem load_font_config_last_line (lines : list string) (line key : string) :
  lookup key (load_font_config (Some (lines ++ [line])))
  = match line_entry line with
    | Some (k, v) =>
        if (k =? key)%string then Some v
        else lookup key (load_font_config (Some lines))
    | None => lookup key (load_font_config (Some lines))
    end.
Proof.
  rewrite config_lines_app. unfold config_line.
  destruct (line_entry line) as [[k v]|]; [|reflexivity].
  destruct (k =? key)%string eqn:E.
  - apply String.eqb_eq in E. subst k. apply lookup_dict_set_same.
  - apply String.eqb_neq in E. now apply lookup_dict_set_other.
Qed.

Lemma split_once_join (c : ascii) (s before after : string) :
  split_once c s = Some (before, after) ->
  s = String.append before (String c after) /\
  count_chars (fun x => (x =? c)%char) before = 0%nat.
Proof.
  revert before. induction s as [|x s IH]; intros before H;
    cbn [split_once] in H; [discriminate|].
  destruct (x =? c)%char eqn:E.
  - injection H as <- <-. apply Ascii.eqb_eq in E. subst x. now split.
  - destruct (split_once c s) as [[b a]|]; [|discriminate].
    injection H as <- <-. destruct (IH b eq_refl) as [-> Hcount].
    split; [reflexivity|]. cbn [count_chars]. now rewrite E.
Qed.

(** X27: a line defines an entry only through its first "=": the key is
    the text of the stripped line before that "=", taken as it is (blanks
    before the "=" stay in the key), and the value is the text after it,
    stripped of blanks and then of double and single quotes at its ends. *)
Theorem line_entry_split (line key value : string) :
  line_entry line = Some (key, value) ->
  exists rest,
    strip line = String.append key (String "=" rest) /\
    count_chars (fun x => (x =? "=")%char) key = 0%nat /\
    value = strip_char "'" (strip_char "034" (strip rest)).
Proof.
  unfold line_entry.
  destruct ((strip line =? "")%string || prefix "#" (strip line));
    [discriminate|].
  destruct (split_once "=" (strip line)) as [[k v]|] eqn:E; [|discriminate].
  intros H. injection H as <- <-.
  destruct (split_once_join _ _ _ _ E) as [Hjoin Hcount].
  now exists v.
Qed.

Lemma line_entry_split_witness :
  exists rest,
    strip "MAIN_FONT = 'Palatino'"
    = String.append "MAIN_FONT " (String "=" rest) /\
    count_chars (fun x => (x =? "=")%char) "MAIN_FONT " = 0%nat /\
    "Palatino" = strip_char "'" (strip_char "034" (strip rest)).
Proof.
  exact (line_entry_split "MAIN_FONT = 'Palatino'" "MAIN_FONT " "Palatino"
           eq_refl).
Defined.

(** ** The escaping of text for the verbatim environment *)

(** X28: the ten replacements of [_ansi_to_latex] act as one pass over the
    text with the table [escape_verbatim_char]. A backslash comes out as
    "\textbackslash\{\}": the braces that the first replacement writes are
    escaped by the second and the third. *)
Theorem escape_verbatim_one_pass (part : string) :
  escape_verbatim part = subst escape_verbatim_char part /\
  escape_verbatim_char "\" = "\textbackslash\{\}".
Proof.
  split; [|reflexivity].
  unfold escape_verbatim. cbv zeta. rewrite !replace_single.
  rewrite !(subst_subst _ _ part). apply subst_ext. intros c.
  destruct c as [[] [] [] [] [] [] [] []]; reflexivity.
Qed.
